(** * Audio_Filter: the signal-conditioning pipeline of [audio.py] and
      [audio_advanced.py], embedded over exact real arithmetic.

    Samples are NumPy [float64] values in the source; here a sample is a real
    number ([R]) and every arithmetic operation is exact.  Rounding, infinities
    and NaN are therefore outside the model.  A one-dimensional array is a
    [list R]; a Python exception is the [Raise] branch of [result]. *)

From Stdlib Require Import String Ascii.
From Stdlib Require Import Reals Lra Lia List Bool Arith.
Import ListNotations.

Local Open Scope R_scope.
Set Warnings "-abstract-large-number".

(** ** Exceptions as results *)

Inductive exn : Type :=
| ValueError.

Inductive result (A : Type) : Type :=
| Ok (a : A)
| Raise (e : exn).

Arguments Ok {A} a.
Arguments Raise {A} e.

Definition bind {A B : Type} (r : result A) (k : A -> result B) : result B :=
  match r with
  | Ok a => k a
  | Raise e => Raise e
  end.

Notation "x <- r ;; k" := (bind r (fun x => k))
  (at level 61, r at next level, right associativity).

(** ** Decidable comparisons on samples, as the booleans NumPy computes *)

Definition Rltb (x y : R) : bool := if Rlt_dec x y then true else false.
Definition Rleb (x y : R) : bool := if Rle_dec x y then true else false.
Definition Reqb (x y : R) : bool := if Req_dec_T x y then true else false.

(** A block of samples.  Real arithmetic is exact where [float64] rounds;
    the properties stated about blocks are of the kind rounding does not
    break: orderings, bounds that are not strict, exact zeros, lengths. *)
Definition block := list R.

(** A sample is silent when it is exactly zero; a block when all of it is. *)
Definition silent (x : block) : Prop := Forall (fun s => s = 0) x.

(** The closed interval the spec calls the clipping range. *)
Definition in_range (s : R) : Prop := -1 <= s <= 1.

(** ** NumPy *)

Module Numpy.

Definition zeros (n : nat) : block := repeat 0 n.

(** [np.abs] on a real array. *)
Definition abs (x : block) : block := map Rabs x.

(** [np.max]: raises on a zero-size array, which has no identity. *)
Definition max (x : block) : result R :=
  match x with
  | [] => Raise ValueError
  | s :: rest => Ok (fold_left Rmax rest s)
  end.

(** [np.clip(x, lo, hi)] is [minimum(hi, maximum(x, lo))] elementwise. *)
Definition clip1 (lo hi s : R) : R := Rmin hi (Rmax s lo).
Definition clip (x : block) (lo hi : R) : block := map (clip1 lo hi) x.

(** [np.where(cond, 0, x)] with the condition computed per element. *)
Definition where0 (cond : R -> bool) (x : block) : block :=
  map (fun s => if cond s then 0 else s) x.

(** Elementwise binary operation on two one-dimensional arrays with NumPy's
    broadcasting: equal shapes pair up, a length-one operand is stretched,
    anything else raises. *)
Definition broadcast2 {A B C : Type} (f : A -> B -> C)
    (x : list A) (y : list B) : result (list C) :=
  if Nat.eqb (length x) (length y) then
    Ok (map (fun p => f (fst p) (snd p)) (combine x y))
  else
    match x, y with
    | [a], _ => Ok (map (f a) y)
    | _, [b] => Ok (map (fun a => f a b) x)
    | _, _ => Raise ValueError
    end.

(** [np.roll(x, -k)]: rotate left by [k] modulo the size. *)
Definition roll_left {A : Type} (x : list A) (k : nat) : list A :=
  match length x with
  | O => x
  | n => skipn (k mod n) x ++ firstn (k mod n) x
  end.

(** [x[-k:] = v]: the slice starts at [len - k] when [0 < k <= len] and at
    the front otherwise ([-0] is [0]); [v] must have the slice's length or
    length one. *)
Definition assign_tail (x : block) (k : nat) (v : block) : result block :=
  let n := length x in
  let start := if (Nat.ltb 0 k && Nat.leb k n)%bool then (n - k)%nat else O in
  let width := (n - start)%nat in
  if Nat.eqb (length v) width then Ok (firstn start x ++ v)
  else match v with
       | [c] => Ok (firstn start x ++ repeat c width)
       | _ => Raise ValueError
       end.

(** [np.concatenate]: needs at least one array. *)
Definition concatenate (xs : list block) : result block :=
  match xs with
  | [] => Raise ValueError
  | _ => Ok (concat xs)
  end.

(** *** Complex values and the real FFT pair *)

Definition complex : Type := (R * R)%type.

Definition cabs (z : complex) : R := sqrt (fst z * fst z + snd z * snd z).

(** [np.angle] is [arctan2(imag, real)]. *)
Definition arctan2 (y x : R) : R :=
  if Rlt_dec 0 x then atan (y / x)
  else if Rlt_dec x 0 then
    if Rle_dec 0 y then atan (y / x) + PI else atan (y / x) - PI
  else if Rlt_dec 0 y then PI / 2
  else if Rlt_dec y 0 then - (PI / 2)
  else 0.

Definition angle (z : complex) : R := arctan2 (snd z) (fst z).

(** [m * np.exp(1j * phase)] for a real magnitude [m]. *)
Definition polar (m phase : R) : complex := (m * cos phase, m * sin phase).

Definition sum (x : block) : R := fold_right Rplus 0 x.

Definition theta (k t n : nat) : R := 2 * PI * INR k * INR t / INR n.

(** Bin [k] of the discrete Fourier transform of the real sequence [x]. *)
Definition dft_bin (x : block) (k : nat) : complex :=
  let n := length x in
  let ts := seq 0 n in
  (sum (map (fun p => fst p * cos (theta k (snd p) n)) (combine x ts)),
   - sum (map (fun p => fst p * sin (theta k (snd p) n)) (combine x ts))).

(** [np.fft.rfft]: the [n/2 + 1] non-negative-frequency bins; an empty input
    is an invalid number of data points. *)
Definition rfft (x : block) : result (list complex) :=
  match length x with
  | O => Raise ValueError
  | n => Ok (map (dft_bin x) (seq 0 (n / 2 + 1)))
  end.

Definition re_at (X : list complex) (k : nat) : R := fst (nth k X (0, 0)).
Definition im_at (X : list complex) (k : nat) : R := snd (nth k X (0, 0)).

Definition alternate (t : nat) : R := if Nat.even t then 1 else -1.

(** Sample [t] of the inverse transform of the Hermitian extension of [X]
    to [n = 2 * (m - 1)] points; the imaginary parts of the first and last
    bin do not contribute. *)
Definition idft_sample (X : list complex) (n t : nat) : R :=
  (re_at X 0 + alternate t * re_at X (n / 2)
   + 2 * sum (map (fun k => re_at X k * cos (theta k t n)
                            - im_at X k * sin (theta k t n))
                  (seq 1 (n / 2 - 1))))
  / INR n.

(** [np.fft.irfft(X)] with the default output size [2 * (len(X) - 1)],
    which must be positive. *)
Definition irfft (X : list complex) : result block :=
  match (2 * (length X - 1))%nat with
  | O => Raise ValueError
  | n => Ok (map (idft_sample X n) (seq 0 n))
  end.

End Numpy.

(** ** SciPy's signal module

    [lfilter], [firwin] and [butter] belong to SciPy, not to this repository;
    they are modelled from SciPy's documented algorithms so that the
    repository's calls can be followed through them. *)

Module Scipy.

Import Numpy.

(** *** [lfilter]: the direct-form difference equation
    [a0*y[n] = b0*x[n] + b1*x[n-1] + ... - a1*y[n-1] - ...] *)

Fixpoint dot (c h : list R) : R :=
  match c, h with
  | c0 :: c', h0 :: h' => c0 * h0 + dot c' h'
  | _, _ => 0
  end.

(** [xh] and [yh] hold the past inputs and outputs, most recent first. *)
Fixpoint lfilter_loop (b a_rest : list R) (a0 : R)
    (xh yh : list R) (x : block) : block :=
  match x with
  | [] => []
  | s :: x' =>
      let xh' := s :: xh in
      let y := (dot b xh' - dot a_rest yh) / a0 in
      y :: lfilter_loop b a_rest a0 xh' (y :: yh) x'
  end.

(** Coefficients are normalised by [a[0]], which must not be zero; empty
    coefficient vectors are rejected. *)
Definition lfilter (b a : list R) (x : block) : result block :=
  match b, a with
  | [], _ => Raise ValueError
  | _, [] => Raise ValueError
  | _, a0 :: a_rest =>
      if Reqb a0 0 then Raise ValueError
      else Ok (lfilter_loop b a_rest a0 [] [] x)
  end.

(** *** [firwin]: windowed-sinc design with a Hamming window *)

Definition sinc (x : R) : R :=
  if Reqb x 0 then 1 else sin (PI * x) / (PI * x).

(** The symmetric Hamming window, [0.54 + 0.46*cos(fac)] over
    [fac = linspace(-pi, pi, M)]; all ones when [M <= 1]. *)
Definition hamming (M : nat) : block :=
  match M with
  | O => []
  | S O => [1]
  | _ => map (fun n => 54 / 100
                       + 46 / 100 * cos (- PI + 2 * PI * INR n / INR (M - 1)))
             (seq 0 M)
  end.

(** [firwin(numtaps, cutoff, fs=fs, pass_zero=pass_zero)] for one cutoff. *)
Definition firwin (numtaps : nat) (cutoff fs : R) (pass_zero : bool)
    : result block :=
  let nyq := fs / 2 in
  let c := cutoff / nyq in
  if (Rleb c 0 || Rleb 1 c)%bool then Raise ValueError
  else
    let pass_nyquist := negb pass_zero in
    if (pass_nyquist && Nat.even numtaps)%bool then Raise ValueError
    else
      let left := if pass_zero then 0 else c in
      let right := if pass_zero then c else 1 in
      let alpha := (INR numtaps - 1) / 2 in
      let m := map (fun n => INR n - alpha) (seq 0 numtaps) in
      let h := map (fun p => (right * sinc (right * fst p)
                              - left * sinc (left * fst p)) * snd p)
                   (combine m (hamming numtaps)) in
      let scale_frequency :=
        if Reqb left 0 then 0
        else if Reqb right 1 then 1
        else (left + right) / 2 in
      let s := sum (map (fun p => fst p * cos (PI * snd p * scale_frequency))
                        (combine h m)) in
      Ok (map (fun t => t / s) h).

(** *** [butter]: Butterworth design through zeros, poles and gain *)

Definition cadd (z w : complex) : complex := (fst z + fst w, snd z + snd w).
Definition csub (z w : complex) : complex := (fst z - fst w, snd z - snd w).
Definition cneg (z : complex) : complex := (- fst z, - snd z).
Definition cmul (z w : complex) : complex :=
  (fst z * fst w - snd z * snd w, fst z * snd w + snd z * fst w).
Definition cdiv (z w : complex) : complex :=
  let d := fst w * fst w + snd w * snd w in
  ((fst z * fst w + snd z * snd w) / d, (snd z * fst w - fst z * snd w) / d).
Definition cscale (r : R) (z : complex) : complex := (r * fst z, r * snd z).
Definition creal (r : R) : complex := (r, 0).

(** Principal square root: non-negative real part, sign of the imaginary
    part following the argument's. *)
Definition csqrt (z : complex) : complex :=
  let r := cabs z in
  (sqrt ((r + fst z) / 2),
   (if Rlt_dec (snd z) 0 then -1 else 1) * sqrt ((r - fst z) / 2)).

Definition cprod (zs : list complex) : complex :=
  fold_right cmul (creal 1) zs.

Inductive band : Type := lowpass | highpass | bandpass | bandstop.

Definition lower_ascii (c : ascii) : ascii :=
  let n := nat_of_ascii c in
  if (Nat.leb 65 n && Nat.leb n 90)%bool then ascii_of_nat (n + 32) else c.

Fixpoint lower (s : string) : string :=
  match s with
  | EmptyString => EmptyString
  | String c s' => String (lower_ascii c) (lower s')
  end.

Definition one_of (s : string) (keys : list string) : bool :=
  existsb (String.eqb s) keys.

Definition band_dict (s : string) : option band :=
  if one_of s ["band"; "bandpass"; "pass"; "bp"]%string then Some bandpass
  else if one_of s ["bs"; "bandstop"; "bands"; "stop"]%string then Some bandstop
  else if one_of s ["l"; "low"; "lowpass"; "lp"]%string then Some lowpass
  else if one_of s ["h"; "high"; "highpass"; "hp"]%string then Some highpass
  else None.

Record zpk : Type := { zeros_of : list complex;
                       poles_of : list complex;
                       gain_of : R }.

(** The analog prototype: [N] poles on the left half of the unit circle,
    [-exp(1j*pi*m/(2N))] for [m = -N+1, -N+3, ..., N-1]. *)
Definition buttap (N : nat) : zpk :=
  {| zeros_of := [];
     poles_of := map (fun i => let m := 2 * INR i - INR N + 1 in
                               cneg (cos (PI * m / (2 * INR N)),
                                     sin (PI * m / (2 * INR N))))
                     (seq 0 N);
     gain_of := 1 |}.

Definition relative_degree (f : zpk) : nat :=
  (length (poles_of f) - length (zeros_of f))%nat.

Definition lp2lp_zpk (f : zpk) (wo : R) : zpk :=
  {| zeros_of := map (cscale wo) (zeros_of f);
     poles_of := map (cscale wo) (poles_of f);
     gain_of := gain_of f * wo ^ relative_degree f |}.

Definition lp2hp_zpk (f : zpk) (wo : R) : zpk :=
  {| zeros_of := map (cdiv (creal wo)) (zeros_of f)
                 ++ repeat (creal 0) (relative_degree f);
     poles_of := map (cdiv (creal wo)) (poles_of f);
     gain_of := gain_of f * fst (cdiv (cprod (map cneg (zeros_of f)))
                                      (cprod (map cneg (poles_of f)))) |}.

(** Each root [r] of the low-pass prototype splits in two,
    [r +/- sqrt(r^2 - wo^2)]. *)
Definition split_roots (wo : R) (rs : list complex) : list complex :=
  let root r := csqrt (csub (cmul r r) (creal (wo * wo))) in
  map (fun r => cadd r (root r)) rs ++ map (fun r => csub r (root r)) rs.

Definition lp2bp_zpk (f : zpk) (wo bw : R) : zpk :=
  {| zeros_of := split_roots wo (map (cscale (bw / 2)) (zeros_of f))
                 ++ repeat (creal 0) (relative_degree f);
     poles_of := split_roots wo (map (cscale (bw / 2)) (poles_of f));
     gain_of := gain_of f * bw ^ relative_degree f |}.

Definition lp2bs_zpk (f : zpk) (wo bw : R) : zpk :=
  {| zeros_of := split_roots wo (map (cdiv (creal (bw / 2))) (zeros_of f))
                 ++ repeat (0, wo) (relative_degree f)
                 ++ repeat (0, - wo) (relative_degree f);
     poles_of := split_roots wo (map (cdiv (creal (bw / 2))) (poles_of f));
     gain_of := gain_of f * fst (cdiv (cprod (map cneg (zeros_of f)))
                                      (cprod (map cneg (poles_of f)))) |}.

Definition bilinear_zpk (f : zpk) (fs : R) : zpk :=
  let fs2 := creal (2 * fs) in
  {| zeros_of := map (fun z => cdiv (cadd fs2 z) (csub fs2 z)) (zeros_of f)
                 ++ repeat (creal (-1)) (relative_degree f);
     poles_of := map (fun p => cdiv (cadd fs2 p) (csub fs2 p)) (poles_of f);
     gain_of := gain_of f
                * fst (cdiv (cprod (map (csub fs2) (zeros_of f)))
                            (cprod (map (csub fs2) (poles_of f)))) |}.

(** [np.poly]: the monic polynomial with the given roots, highest power
    first, built by multiplying one factor [(x - r)] at a time. *)
Fixpoint times_linear (c : list complex) (prev r : complex) : list complex :=
  match c with
  | [] => [cneg (cmul r prev)]
  | ck :: c' => csub ck (cmul r prev) :: times_linear c' ck r
  end.

Definition poly (roots : list complex) : list complex :=
  fold_left (fun c r => match c with
                        | [] => []
                        | c0 :: c' => c0 :: times_linear c' c0 r
                        end)
            roots [creal 1].

(** [zpk2tf]: the roots come in conjugate pairs, so the coefficients are
    real and their real parts are returned. *)
Definition zpk2tf (f : zpk) : list R * list R :=
  (map (fun c => gain_of f * fst c) (poly (zeros_of f)),
   map fst (poly (poles_of f))).

(** [butter(N, Wn, btype=btype, fs=fs)] with the default ['ba'] output. *)
Definition butter (N : nat) (Wn : list R) (fs : R) (btype : string)
    : result (list R * list R) :=
  let Wn' := map (fun w => 2 * w / fs) Wn in
  match band_dict (lower btype) with
  | None => Raise ValueError
  | Some bt =>
      if existsb (fun w => (Rleb w 0 || Rleb 1 w)%bool) Wn'
      then Raise ValueError
      else
        let warp w := 4 * tan (PI * w / 2) in
        let proto := buttap N in
        match bt, Wn' with
        | lowpass, [w] =>
            Ok (zpk2tf (bilinear_zpk (lp2lp_zpk proto (warp w)) 2))
        | highpass, [w] =>
            Ok (zpk2tf (bilinear_zpk (lp2hp_zpk proto (warp w)) 2))
        | bandpass, [w0; w1] =>
            if Rltb w0 w1 then
              Ok (zpk2tf (bilinear_zpk
                            (lp2bp_zpk proto (sqrt (warp w0 * warp w1))
                                       (warp w1 - warp w0)) 2))
            else Raise ValueError
        | bandstop, [w0; w1] =>
            if Rltb w0 w1 then
              Ok (zpk2tf (bilinear_zpk
                            (lp2bs_zpk proto (sqrt (warp w0 * warp w1))
                                       (warp w1 - warp w0)) 2))
            else Raise ValueError
        | _, _ => Raise ValueError
        end
  end.

End Scipy.

(** ** [audio.py] *)

Module Audio.

(** [design_filter(filter_type, cutoff, fs, order, use_fir)]: FIR taps with
    no denominator, or the Butterworth pair. *)
Definition design_filter (filter_type : string) (cutoff fs : R)
    (order : nat) (use_fir : bool) : result (list R * option (list R)) :=
  if use_fir then
    taps <- Scipy.firwin order cutoff fs (String.eqb filter_type "low") ;;
    Ok (taps, None)
  else
    ba <- Scipy.butter 6 [cutoff] fs filter_type ;;
    Ok (fst ba, Some (snd ba)).

Definition apply_filter (audio : block) (b : list R) (a : option (list R))
    : result block :=
  Scipy.lfilter b (match a with None => [1] | Some a' => a' end) audio.

Definition amplify (audio : block) (gain : R) : block :=
  Numpy.clip (map (fun s => s * gain) audio) (-1) 1.

Definition highpass_noise_removal (audio : block) (fs cutoff : R)
    : result block :=
  ba <- Scipy.butter 4 [cutoff] fs "high" ;;
  Scipy.lfilter (fst ba) (snd ba) audio.

(** The dictionary built by [get_user_params]. *)
Record Params : Type := {
  cutoff : R;
  gain : R;
  duration : R;
  filter_type : string;
  use_fir : bool;
  noise_reduction : bool
}.

(** The per-block [callback] of [realtime_process_visual], a closure over
    [params], [fs] and the coefficients designed before the stream opens;
    the returned block is what is written to [outdata]. *)
Definition callback (params : Params) (fs : R)
    (b : list R) (a : option (list R)) (indata : block) : result block :=
  in_audio <- (if noise_reduction params
               then highpass_noise_removal indata fs 100
               else Ok indata) ;;
  filtered <- apply_filter in_audio b a ;;
  Ok (amplify filtered (gain params)).

(** The numeric part of [process_file] and [record_from_mic]. *)
Definition process_samples (params : Params) (audio : block) (fs : R)
    : result block :=
  audio' <- (if noise_reduction params
             then highpass_noise_removal audio fs 100
             else Ok audio) ;;
  ba <- design_filter (filter_type params) (cutoff params) fs 101
                      (use_fir params) ;;
  filtered <- apply_filter audio' (fst ba) (snd ba) ;;
  Ok (amplify filtered (gain params)).

End Audio.

(** ** [audio_advanced.py] *)

Module AudioAdvanced.

Definition design_iir_filter (filter_type : string) (cutoff : list R) (fs : R)
    : result (list R * list R) :=
  Scipy.butter 6 cutoff fs filter_type.

Definition default_threshold : R := 15 / 1000.

Definition noise_gate (signal : block) (threshold : R) : block :=
  Numpy.where0 (fun s => Rltb (Rabs s) threshold) signal.

Definition spectral_subtraction (audio noise_estimate : block)
    : result block :=
  spectrum <- Numpy.rfft audio ;;
  noise_spectrum <- Numpy.rfft noise_estimate ;;
  let magnitude := map Numpy.cabs spectrum in
  let phase := map Numpy.angle spectrum in
  diff <- Numpy.broadcast2 Rminus magnitude (map Numpy.cabs noise_spectrum) ;;
  let clean_magnitude := map (fun m => Rmax m 0) diff in
  cleaned_spectrum <- Numpy.broadcast2 Numpy.polar clean_magnitude phase ;;
  Numpy.irfft cleaned_spectrum.

Definition epsilon : R := 1 / 1000000.

Definition normalize_audio (audio : block) : result block :=
  peak <- Numpy.max (Numpy.abs audio) ;;
  Ok (map (fun s => s / (peak + epsilon)) audio).

Definition process_audio (audio : block) (b a : list R) (gain : R)
    (use_gate : bool) : result block :=
  audio' <- normalize_audio audio ;;
  filtered <- Scipy.lfilter b a audio' ;;
  let filtered' := if use_gate then noise_gate filtered default_threshold
                   else filtered in
  Ok (Numpy.clip (map (fun s => s * gain) filtered') (-1) 1).

(** *** The streaming session of [realtime_process] *)

(** The Tk variables the control surface writes and the callback reads. *)
Record Widgets : Type := {
  gain_slider : R;
  noise_gate_var : bool;
  record_var : bool
}.

(** The values [setup_realtime_tab] gives them. *)
Definition initial_widgets : Widgets :=
  {| gain_slider := 3; noise_gate_var := true; record_var := false |}.

(** [self.realtime_buffer] and [self.recorded_audio]. *)
Record Session : Type := {
  realtime_buffer : block;
  recorded_audio : list block
}.

(** The locals of [realtime_process] captured by its nested functions. *)
Record Closure : Type := {
  fs : nat;
  blocksize : nat;
  coeff_b : list R;
  coeff_a : list R;
  noise_profile : block
}.

Definition realtime_process_setup : result (Closure * Session) :=
  ba <- design_iir_filter "band" [150; 3500] 44100 ;;
  Ok ({| fs := 44100; blocksize := 512;
         coeff_b := fst ba; coeff_a := snd ba;
         noise_profile := Numpy.zeros 512 |},
      {| realtime_buffer := Numpy.zeros 44100; recorded_audio := [] |}).

(** [self.recorded_audio.append(audio_out.copy())]. *)
Definition append (s : Session) (audio_out : block) : Session :=
  {| realtime_buffer := realtime_buffer s;
     recorded_audio := recorded_audio s ++ [audio_out] |}.

(** [outdata[:, 0] = audio_out]: the value stored in a column of [frames]
    rows. *)
Definition assign_column (frames : nat) (v : block) : result block :=
  if Nat.eqb (length v) frames then Ok v
  else match v with
       | [c] => Ok (repeat c frames)
       | _ => Raise ValueError
       end.

(** The body of [audio_callback] once [gain], [use_gate] and [record] have
    been read; returns the output column and the updated session. *)
Definition callback_body (env : Closure) (gain : R) (use_gate record : bool)
    (s : Session) (indata : block) : result (block * Session) :=
  let frames := length indata in
  cleaned <- spectral_subtraction indata (noise_profile env) ;;
  audio_out <- process_audio cleaned (coeff_b env) (coeff_a env) gain use_gate ;;
  outdata <- assign_column frames audio_out ;;
  buffer <- Numpy.assign_tail (Numpy.roll_left (realtime_buffer s) frames)
                              frames audio_out ;;
  let s' := {| realtime_buffer := buffer;
               recorded_audio := recorded_audio s |} in
  Ok (outdata, if record then append s' audio_out else s').

(** One callback with no control event between its three reads. *)
Definition audio_callback (env : Closure) (w : Widgets) (s : Session)
    (indata : block) : result (block * Session) :=
  callback_body env (gain_slider w) (noise_gate_var w) (record_var w) s indata.

(** What the control surface can do between callbacks. *)
Inductive control : Type :=
| SetGain (g : R)
| SetGate (on : bool)
| SetRecord (on : bool).

Definition apply_control (w : Widgets) (c : control) : Widgets :=
  match c with
  | SetGain g => {| gain_slider := g; noise_gate_var := noise_gate_var w;
                    record_var := record_var w |}
  | SetGate on => {| gain_slider := gain_slider w; noise_gate_var := on;
                     record_var := record_var w |}
  | SetRecord on => {| gain_slider := gain_slider w;
                       noise_gate_var := noise_gate_var w; record_var := on |}
  end.

Inductive event : Type :=
| Block (indata : block)
| Control (c : control).

(** The stream while every callback returns: device blocks and control
    events in the order they happen; [Raise] as soon as a callback raises. *)
Fixpoint run_stream (env : Closure) (w : Widgets) (s : Session)
    (events : list event) : result (Widgets * Session) :=
  match events with
  | [] => Ok (w, s)
  | Block indata :: rest =>
      r <- audio_callback env w s indata ;;
      run_stream env w (snd r) rest
  | Control c :: rest => run_stream env (apply_control w c) s rest
  end.

(** What [sf.write] receives. *)
Record Artifact : Type := {
  path : string;
  data : block;
  samplerate : nat
}.

(** The tail of [stream_thread], after [sd.sleep] returns: the recording is
    written when the record box is ticked at that moment. *)
Definition flush (env : Closure) (w : Widgets) (s : Session)
    : result (option Artifact) :=
  if record_var w then
    full_audio <- Numpy.concatenate (recorded_audio s) ;;
    Ok (Some {| path := "realtime_recorded.wav"; data := full_audio;
                samplerate := fs env |})
  else Ok None.

(** The session a callback leaves behind when it raises.  Nothing has been
    touched when the exception comes from the processing or from the write
    to [outdata]; when it comes from the write into the rolled window, the
    window has already been replaced by its rolled copy.  The recording is
    appended to last, so it is never touched. *)
Definition after_exception (env : Closure) (w : Widgets) (s : Session)
    (indata : block) : Session :=
  let frames := length indata in
  match (cleaned <- spectral_subtraction indata (noise_profile env) ;;
         audio_out <- process_audio cleaned (coeff_b env) (coeff_a env)
                        (gain_slider w) (noise_gate_var w) ;;
         assign_column frames audio_out)
  with
  | Ok _ => {| realtime_buffer := Numpy.roll_left (realtime_buffer s) frames;
               recorded_audio := recorded_audio s |}
  | Raise _ => s
  end.

(** The widgets and the session when [sd.sleep] returns.  The callbacks run
    on the audio device's thread, not on [stream_thread]'s: an exception in
    one of them aborts the stream, so that no later block is processed
    ([alive] becomes false), while the control surface keeps working and the
    sleeping thread goes on to its end. *)
Fixpoint session_end (env : Closure) (alive : bool) (w : Widgets) (s : Session)
    (events : list event) : Widgets * Session :=
  match events with
  | [] => (w, s)
  | Block indata :: rest =>
      if alive then
        match audio_callback env w s indata with
        | Ok r => session_end env true w (snd r) rest
        | Raise _ => session_end env false w (after_exception env w s indata) rest
        end
      else session_end env false w s rest
  | Control c :: rest => session_end env alive (apply_control w c) s rest
  end.

(** [stream_thread]: sleep while the stream runs, then write the recording
    if the record box is ticked. *)
Definition stream_thread (env : Closure) (w : Widgets) (s : Session)
    (events : list event) : result (option Artifact) :=
  let r := session_end env true w s events in
  flush env (fst r) (snd r).

(** *** The three reads of [audio_callback] as separate steps

    [audio_callback] runs on the audio thread and reads the gain slider, the
    gate box and the record box one after another while the Tk thread keeps
    serving the control surface.  A schedule lists whose turn it is. *)

Inductive reads : Type :=
| NoRead
| GotGain (g : R)
| GotGate (g : R) (use_gate : bool)
| GotAll (g : R) (use_gate record : bool).

Inductive turn : Type :=
| AudioThread
| TkThread (c : control).

Definition read_next (w : Widgets) (r : reads) : reads :=
  match r with
  | NoRead => GotGain (gain_slider w)
  | GotGain g => GotGate g (noise_gate_var w)
  | GotGate g u => GotAll g u (record_var w)
  | GotAll g u rec => GotAll g u rec
  end.

Definition step (st : Widgets * reads) (t : turn) : Widgets * reads :=
  match t with
  | AudioThread => (fst st, read_next (fst st) (snd st))
  | TkThread c => (apply_control (fst st) c, snd st)
  end.

Definition run (st : Widgets * reads) (schedule : list turn)
    : Widgets * reads :=
  fold_left step schedule st.

(** Every widget state that exists while the schedule runs, in order. *)
Fixpoint history (st : Widgets * reads) (schedule : list turn)
    : list Widgets :=
  match schedule with
  | [] => [fst st]
  | t :: rest => fst st :: history (step st t) rest
  end.


(** The numeric part of [process_file]: the default band-pass design, made
    for 44100 Hz whatever the file's rate is, then [process_audio] with the
    gate on. *)
Definition process_file_samples (audio : block) (gain : R) : result block :=
  ba <- design_iir_filter "band" [150; 3500] 44100 ;;
  process_audio audio (fst ba) (snd ba) gain true.

(** *** The stage order of section 4.3 of the spec, for comparison *)

(** Normalise, gate (when enabled), filter, gain, clip. *)
Definition spec_process (audio : block) (b a : list R) (gain : R)
    (use_gate : bool) : result block :=
  audio' <- normalize_audio audio ;;
  let gated := if use_gate then noise_gate audio' default_threshold
               else audio' in
  filtered <- Scipy.lfilter b a gated ;;
  Ok (Numpy.clip (map (fun s => s * gain) filtered) (-1) 1).

End AudioAdvanced.

(** ** Notions used to state the properties *)

(** The gate stage of [process_audio], applied or skipped. *)
Definition gated (use_gate : bool) (filtered : block) : block :=
  if use_gate
  then AudioAdvanced.noise_gate filtered AudioAdvanced.default_threshold
  else filtered.

(** The gain stage. *)
Definition scaled (gain : R) (x : block) : block := map (fun s => s * gain) x.

(** The spectrum [spectral_subtraction] hands to [irfft] when both inputs
    have the same length. *)
Definition cleaned_spectrum (audio noise : block) : list Numpy.complex :=
  let bins := seq 0 (length audio / 2 + 1) in
  let spectrum := map (Numpy.dft_bin audio) bins in
  let noise_spectrum := map (Numpy.dft_bin noise) bins in
  let diff := map (fun p => fst p - snd p)
                  (combine (map Numpy.cabs spectrum)
                           (map Numpy.cabs noise_spectrum)) in
  map (fun p => Numpy.polar (fst p) (snd p))
      (combine (map (fun m => Rmax m 0) diff) (map Numpy.angle spectrum)).



(** Every value read so far is the value its widget had in one of the listed
    widget states. *)
Definition seen_in (hist : list AudioAdvanced.Widgets)
    (r : AudioAdvanced.reads) : Prop :=
  let gain_seen g :=
    exists w, In w hist /\ g = AudioAdvanced.gain_slider w in
  let gate_seen u :=
    exists w, In w hist /\ u = AudioAdvanced.noise_gate_var w in
  let record_seen rec :=
    exists w, In w hist /\ rec = AudioAdvanced.record_var w in
  match r with
  | AudioAdvanced.NoRead => True
  | AudioAdvanced.GotGain g => gain_seen g
  | AudioAdvanced.GotGate g u => gain_seen g /\ gate_seen u
  | AudioAdvanced.GotAll g u rec => gain_seen g /\ gate_seen u /\ record_seen rec
  end.

(** The device blocks among the events of a stream. *)
Definition blocks_of (events : list AudioAdvanced.event) : list block :=
  flat_map (fun e => match e with
                     | AudioAdvanced.Block indata => [indata]
                     | AudioAdvanced.Control _ => []
                     end) events.


(** * Properties *)

(** ** Comparisons and clipping *)

Lemma Reqb_true (x y : R) : x = y -> Reqb x y = true.
Proof. intros H. unfold Reqb. destruct (Req_dec_T x y); [reflexivity | contradiction]. Qed.

Lemma Reqb_false (x y : R) : x <> y -> Reqb x y = false.
Proof. intros H. unfold Reqb. destruct (Req_dec_T x y); [contradiction | reflexivity]. Qed.

Lemma Rltb_true (x y : R) : x < y -> Rltb x y = true.
Proof. intros H. unfold Rltb. destruct (Rlt_dec x y); [reflexivity | contradiction]. Qed.

Lemma Rltb_false (x y : R) : y <= x -> Rltb x y = false.
Proof. intros H. unfold Rltb. destruct (Rlt_dec x y); [lra | reflexivity]. Qed.

Lemma Rleb_true (x y : R) : x <= y -> Rleb x y = true.
Proof. intros H. unfold Rleb. destruct (Rle_dec x y); [reflexivity | contradiction]. Qed.

Lemma Rleb_false (x y : R) : y < x -> Rleb x y = false.
Proof. intros H. unfold Rleb. destruct (Rle_dec x y); [lra | reflexivity]. Qed.

Ltac split_minmax :=
  unfold Numpy.clip1; unfold Rmax;
  repeat match goal with
         | |- context [Rle_dec ?x ?y] => destruct (Rle_dec x y)
         end;
  unfold Rmin;
  repeat match goal with
         | |- context [Rle_dec ?x ?y] => destruct (Rle_dec x y)
         end.

Lemma clip1_in_range (s : R) : in_range (Numpy.clip1 (-1) 1 s).
Proof. unfold in_range. split_minmax; lra. Qed.

Lemma clip1_inside (s : R) : in_range s -> Numpy.clip1 (-1) 1 s = s.
Proof. unfold in_range. intros H. split_minmax; lra. Qed.

Lemma clip1_above (s : R) : 1 <= s -> Numpy.clip1 (-1) 1 s = 1.
Proof. intros H. split_minmax; lra. Qed.

Lemma clip_in_range (x : block) : Forall in_range (Numpy.clip x (-1) 1).
Proof.
  unfold Numpy.clip. induction x as [|s x IH]; simpl; constructor.
  - apply clip1_in_range.
  - exact IH.
Qed.

Lemma clip_length (x : block) lo hi : length (Numpy.clip x lo hi) = length x.
Proof. unfold Numpy.clip. apply length_map. Qed.

(** ** Silence *)

Lemma silent_zeros (n : nat) : silent (Numpy.zeros n).
Proof.
  unfold silent, Numpy.zeros. induction n; simpl; constructor; auto.
Qed.

Lemma silent_is_zeros (x : block) : silent x -> x = Numpy.zeros (length x).
Proof.
  unfold silent, Numpy.zeros. induction 1 as [|s x Hs _ IH]; simpl.
  - reflexivity.
  - now rewrite Hs, <- IH.
Qed.

Lemma map_silent (f : R -> R) (x : block) :
  f 0 = 0 -> silent x -> silent (map f x).
Proof.
  unfold silent. intros Hf. induction 1 as [|s x Hs _ IH]; simpl; constructor.
  - now rewrite Hs.
  - exact IH.
Qed.

Lemma map_to_zero {A : Type} (f : A -> R) (x : list A) :
  (forall s, f s = 0) -> map f x = Numpy.zeros (length x).
Proof.
  intros Hf. unfold Numpy.zeros. induction x as [|s x IH]; simpl.
  - reflexivity.
  - now rewrite Hf, IH.
Qed.

(** ** The difference equation *)

Lemma dot_silent (c h : list R) : silent h -> Scipy.dot c h = 0.
Proof.
  unfold silent. intros H. revert c.
  induction H as [|s h Hs _ IH]; intros [|c0 c]; simpl; try reflexivity.
  rewrite Hs, IH. lra.
Qed.

Lemma lfilter_loop_length b ar a0 xh yh x :
  length (Scipy.lfilter_loop b ar a0 xh yh x) = length x.
Proof.
  revert xh yh. induction x as [|s x IH]; intros xh yh; simpl.
  - reflexivity.
  - now rewrite IH.
Qed.

Lemma lfilter_loop_silent b ar a0 xh yh x :
  silent xh -> silent yh -> silent x ->
  silent (Scipy.lfilter_loop b ar a0 xh yh x).
Proof.
  intros Hxh Hyh Hx. revert xh yh Hxh Hyh.
  induction Hx as [|s x Hs _ IH]; intros xh yh Hxh Hyh; simpl.
  - constructor.
  - assert (Hxh' : silent (s :: xh)) by (constructor; assumption).
    assert (Hy : (Scipy.dot b (s :: xh) - Scipy.dot ar yh) / a0 = 0).
    { rewrite (dot_silent b _ Hxh'), (dot_silent ar _ Hyh).
      unfold Rdiv. lra. }
    rewrite Hy. constructor; [reflexivity|].
    apply IH; [assumption | constructor; [reflexivity | assumption]].
Qed.

(** [lfilter] returns exactly when the coefficient vectors are usable, and
    then its output has the input's length. *)
Lemma lfilter_total b a x :
  b <> [] -> hd 0 a <> 0 ->
  exists y, Scipy.lfilter b a x = Ok y /\ length y = length x
            /\ (silent x -> silent y).
Proof.
  intros Hb Ha. unfold Scipy.lfilter.
  destruct b as [|b0 b]; [contradiction|].
  destruct a as [|a0 ar]; simpl in Ha; [contradiction|].
  rewrite (Reqb_false _ _ Ha). eexists; split; [reflexivity|]. split.
  - apply lfilter_loop_length.
  - intros Hx. apply lfilter_loop_silent; [constructor | constructor | exact Hx].
Qed.

Lemma lfilter_length b a x y :
  Scipy.lfilter b a x = Ok y -> length y = length x.
Proof.
  unfold Scipy.lfilter. destruct b; [discriminate|]. destruct a; [discriminate|].
  destruct (Reqb r0 0); [discriminate|]. intros H. injection H as <-.
  apply lfilter_loop_length.
Qed.

(** ** Normalisation *)

Lemma fold_Rmax_ge (x : block) (s : R) : s <= fold_left Rmax x s.
Proof.
  revert s. induction x as [|t x IH]; intros s; simpl.
  - lra.
  - eapply Rle_trans; [apply (Rmax_l s t) | apply IH].
Qed.

Lemma peak_nonneg (x : block) (p : R) :
  Numpy.max (Numpy.abs x) = Ok p -> 0 <= p.
Proof.
  destruct x as [|s x]; simpl; [discriminate|]. intros H. injection H as <-.
  eapply Rle_trans; [apply Rabs_pos | apply fold_Rmax_ge].
Qed.

Lemma normalize_total (x : block) :
  x <> [] ->
  exists y, AudioAdvanced.normalize_audio x = Ok y /\ length y = length x
            /\ (silent x -> silent y).
Proof.
  intros Hx. unfold AudioAdvanced.normalize_audio.
  destruct x as [|s x]; [contradiction|].
  exists (map (fun t => t / (fold_left Rmax (map Rabs x) (Rabs s)
                             + AudioAdvanced.epsilon)) (s :: x)).
  split; [reflexivity|]. split.
  - apply length_map.
  - intros Hs. apply map_silent; [apply Rmult_0_l | exact Hs].
Qed.

Lemma normalize_empty : AudioAdvanced.normalize_audio [] = Raise ValueError.
Proof. reflexivity. Qed.

(** ** [process_audio] *)

Lemma Ok_inj {A : Type} (x y : A) : Ok x = Ok y -> x = y.
Proof. intros H. now injection H. Qed.

Lemma bind_Ok {A B : Type} (r : result A) (k : A -> result B) (y : B) :
  bind r k = Ok y -> exists a, r = Ok a /\ k a = Ok y.
Proof.
  destruct r as [a|e]; simpl; intros H; [|discriminate].
  exists a. split; [reflexivity | exact H].
Qed.

(** The stages a successful call went through, in the order they ran. *)
Lemma process_audio_stages audio b a gain use_gate out :
  AudioAdvanced.process_audio audio b a gain use_gate = Ok out ->
  exists normalized filtered,
    AudioAdvanced.normalize_audio audio = Ok normalized
    /\ Scipy.lfilter b a normalized = Ok filtered
    /\ out = Numpy.clip (scaled gain (gated use_gate filtered)) (-1) 1.
Proof.
  unfold AudioAdvanced.process_audio. intros H.
  apply bind_Ok in H as [normalized [Hn H]].
  apply bind_Ok in H as [filtered [Hf H]].
  exists normalized, filtered. injection H as <-. auto.
Qed.

Lemma process_audio_of_stages audio b a gain use_gate normalized filtered :
  AudioAdvanced.normalize_audio audio = Ok normalized ->
  Scipy.lfilter b a normalized = Ok filtered ->
  AudioAdvanced.process_audio audio b a gain use_gate
  = Ok (Numpy.clip (scaled gain (gated use_gate filtered)) (-1) 1).
Proof.
  intros Hn Hf. unfold AudioAdvanced.process_audio. rewrite Hn. simpl.
  rewrite Hf. reflexivity.
Qed.

Lemma gated_length use_gate x : length (gated use_gate x) = length x.
Proof.
  destruct use_gate; simpl; [|reflexivity].
  unfold AudioAdvanced.noise_gate, Numpy.where0. apply length_map.
Qed.

Lemma gated_silent use_gate x : silent x -> silent (gated use_gate x).
Proof.
  destruct use_gate; simpl; [|auto]. intros H.
  unfold AudioAdvanced.noise_gate, Numpy.where0.
  apply (map_silent (fun s => if Rltb (Rabs s) AudioAdvanced.default_threshold
                              then 0 else s)); [|exact H].
  destruct (Rltb _ _); reflexivity.
Qed.

Lemma clip_scaled_silent gain x :
  silent x -> Numpy.clip (scaled gain x) (-1) 1 = Numpy.zeros (length x).
Proof.
  intros H. unfold Numpy.clip, scaled. rewrite map_map.
  rewrite (silent_is_zeros x H) at 1. unfold Numpy.zeros.
  rewrite map_repeat. f_equal.
  rewrite Rmult_0_l. apply clip1_inside. unfold in_range. lra.
Qed.

Lemma clip_scaled_zero_gain x :
  Numpy.clip (scaled 0 x) (-1) 1 = Numpy.zeros (length x).
Proof.
  unfold Numpy.clip, scaled. rewrite map_map. apply map_to_zero.
  intros s. rewrite Rmult_0_r. apply clip1_inside. unfold in_range. lra.
Qed.

(** With a non-empty block and usable coefficients the call returns, and the
    result has the block's length and stays inside the clipping range. *)
Lemma process_audio_total audio b a gain use_gate :
  audio <> [] -> b <> [] -> hd 0 a <> 0 ->
  exists out, AudioAdvanced.process_audio audio b a gain use_gate = Ok out
              /\ length out = length audio /\ Forall in_range out.
Proof.
  intros Hx Hb Ha.
  destruct (normalize_total audio Hx) as [normalized [Hn [Ln _]]].
  destruct (lfilter_total b a normalized Hb Ha) as [filtered [Hf [Lf _]]].
  eexists. split; [eapply process_audio_of_stages; eassumption|]. split.
  - rewrite clip_length. unfold scaled. rewrite length_map, gated_length. lia.
  - apply clip_in_range.
Qed.

(** C1. Every sample that [process_audio] returns lies in [-1, 1], for any
    block, coefficients, gain and gate setting, and the call does return for
    a non-empty block with usable coefficients; the same bound holds for
    everything [amplify] and the [audio.py] callback produce. *)
Theorem process_output_in_range :
  (forall audio b a gain use_gate out,
      AudioAdvanced.process_audio audio b a gain use_gate = Ok out ->
      Forall in_range out)
  /\ (forall audio b a gain use_gate,
         audio <> [] -> b <> [] -> hd 0 a <> 0 ->
         exists out, AudioAdvanced.process_audio audio b a gain use_gate = Ok out
                     /\ Forall in_range out)
  /\ (forall audio gain, Forall in_range (Audio.amplify audio gain))
  /\ (forall params fs b a indata out,
         Audio.callback params fs b a indata = Ok out -> Forall in_range out).
Proof.
  repeat split.
  - intros audio b a gain use_gate out H.
    apply process_audio_stages in H as [n [f [_ [_ ->]]]]. apply clip_in_range.
  - intros audio b a gain use_gate Hx Hb Ha.
    destruct (process_audio_total audio b a gain use_gate Hx Hb Ha)
      as [out [H [_ Hr]]].
    exists out. auto.
  - intros audio gain. apply clip_in_range.
  - intros params fs b a indata out H. unfold Audio.callback in H.
    apply bind_Ok in H as [x [_ H]]. apply bind_Ok in H as [y [_ H]].
    injection H as <-. apply clip_in_range.
Qed.

(** A full-scale sample with gain 10 and the identity filter clips to 1. *)
Lemma process_audio_full_scale :
  AudioAdvanced.process_audio [1] [1] [1] 10 false = Ok [1].
Proof.
  unfold AudioAdvanced.process_audio, AudioAdvanced.normalize_audio,
    Numpy.max, Numpy.abs.
  cbn [map fold_left bind].
  unfold Scipy.lfilter. rewrite Reqb_false by lra.
  cbn [Scipy.lfilter_loop Scipy.dot bind map Numpy.clip].
  rewrite Rabs_R1. unfold AudioAdvanced.epsilon.
  do 2 f_equal. apply clip1_above.
  assert (H : (1 * (1 / (1 + 1 / 1000000)) + 0 - 0) / 1 * 10
              = 10000000 / 1000001) by (field; lra).
  rewrite H. lra.
Qed.

Lemma process_output_in_range_witness :
  Forall in_range [1] /\ Forall in_range (Audio.amplify [5; -3] 2).
Proof.
  split.
  - apply (proj1 process_output_in_range [1] [1] [1] 10 false [1]).
    exact process_audio_full_scale.
  - apply (proj1 (proj2 (proj2 process_output_in_range))).
Defined.

Lemma process_audio_silent audio b a gain use_gate :
  audio <> [] -> b <> [] -> hd 0 a <> 0 -> silent audio ->
  AudioAdvanced.process_audio audio b a gain use_gate
  = Ok (Numpy.zeros (length audio)).
Proof.
  intros Hx Hb Ha Hs.
  destruct (normalize_total audio Hx) as [normalized [Hn [Ln Sn]]].
  destruct (lfilter_total b a normalized Hb Ha) as [filtered [Hf [Lf Sf]]].
  rewrite (process_audio_of_stages _ _ _ _ _ _ _ Hn Hf).
  rewrite clip_scaled_silent by (apply gated_silent; auto).
  rewrite gated_length. do 2 f_equal. lia.
Qed.

(** C6 (as amended). For a non-empty block and usable coefficients (non-empty
    numerator, non-zero leading denominator coefficient), [process_audio]
    returns without raising, and the result is all zeros when the block is all
    zeros, for any gain, and when the gain is zero, for any block. *)
Theorem process_silence_and_zero_gain audio b a gain use_gate :
  audio <> [] -> b <> [] -> hd 0 a <> 0 ->
  (silent audio ->
   AudioAdvanced.process_audio audio b a gain use_gate
   = Ok (Numpy.zeros (length audio)))
  /\ AudioAdvanced.process_audio audio b a 0 use_gate
     = Ok (Numpy.zeros (length audio)).
Proof.
  intros Hx Hb Ha.
  destruct (normalize_total audio Hx) as [normalized [Hn [Ln Sn]]].
  destruct (lfilter_total b a normalized Hb Ha) as [filtered [Hf [Lf Sf]]].
  rewrite !(process_audio_of_stages _ _ _ _ _ _ _ Hn Hf).
  split.
  - intros Hs. rewrite clip_scaled_silent by (apply gated_silent; auto).
    rewrite gated_length. do 2 f_equal. lia.
  - rewrite clip_scaled_zero_gain, gated_length. do 2 f_equal. lia.
Qed.

Lemma process_silence_and_zero_gain_witness :
  AudioAdvanced.process_audio [0; 0] [1] [1] 3 true = Ok [0; 0]
  /\ AudioAdvanced.process_audio [1; -1] [1] [1] 0 true = Ok [0; 0].
Proof.
  split.
  - apply (process_silence_and_zero_gain [0; 0] [1] [1] 3 true).
    + discriminate.
    + discriminate.
    + simpl. lra.
    + repeat constructor.
  - apply (process_silence_and_zero_gain [1; -1] [1] [1] 3 true).
    + discriminate.
    + discriminate.
    + simpl. lra.
Defined.

(** The empty block is all zeros, yet [process_audio] raises on it: the peak
    of an empty array does not exist. *)
Lemma process_empty_block_raises :
  silent []
  /\ AudioAdvanced.process_audio [] [1] [1] 0 false = Raise ValueError.
Proof. split; [constructor | reflexivity]. Qed.

(** ** Stage order *)

Lemma gate_small (s : R) :
  Rabs s < AudioAdvanced.default_threshold ->
  nth 0 (AudioAdvanced.noise_gate [s] AudioAdvanced.default_threshold) 0 = 0.
Proof. intros H. simpl. now rewrite Rltb_true. Qed.

Lemma noise_gate_nth (x : block) (t : R) (i : nat) :
  nth i (AudioAdvanced.noise_gate x t) 0
  = if Rltb (Rabs (nth i x 0)) t then 0 else nth i x 0.
Proof.
  unfold AudioAdvanced.noise_gate, Numpy.where0.
  revert i. induction x as [|s x IH]; intros [|i]; simpl; auto.
  - now destruct (Rltb (Rabs 0) t).
  - now destruct (Rltb (Rabs 0) t).
Qed.

Lemma clip_scaled_nth (gain : R) (x : block) (i : nat) :
  (i < length x)%nat ->
  nth i (Numpy.clip (scaled gain x) (-1) 1) 0
  = Numpy.clip1 (-1) 1 (nth i x 0 * gain).
Proof.
  unfold Numpy.clip, scaled. rewrite map_map.
  revert i. induction x as [|s x IH]; intros [|i]; simpl; intros H;
    try lia; auto.
  apply IH. lia.
Qed.

(** C2 (as amended). [process_audio] runs normalisation, then the linear
    filter, then the noise gate when it is enabled, then the gain, then the
    clip: the gate acts on the filter's output, so every output sample whose
    filtered value is below the threshold in magnitude is exactly zero.  In
    [audio.py] the callback runs high-pass noise removal (when enabled), the
    filter, then gain and clip, with no normalisation; in the streaming
    callback of [audio_advanced.py] spectral subtraction runs first and its
    result is what [process_audio] normalises. *)
Theorem gate_follows_filter :
  (forall audio b a gain use_gate out,
      AudioAdvanced.process_audio audio b a gain use_gate = Ok out ->
      exists normalized filtered,
        AudioAdvanced.normalize_audio audio = Ok normalized
        /\ Scipy.lfilter b a normalized = Ok filtered
        /\ out = Numpy.clip (scaled gain (gated use_gate filtered)) (-1) 1
        /\ (use_gate = true ->
            forall i, (i < length filtered)%nat ->
                      Rabs (nth i filtered 0) < AudioAdvanced.default_threshold ->
                      nth i out 0 = 0))
  /\ (forall params fs b a indata out,
         Audio.callback params fs b a indata = Ok out ->
         exists in_audio filtered,
           (if Audio.noise_reduction params
            then Audio.highpass_noise_removal indata fs 100
            else Ok indata) = Ok in_audio
           /\ Audio.apply_filter in_audio b a = Ok filtered
           /\ out = Audio.amplify filtered (Audio.gain params))
  /\ (forall env gain use_gate record s indata r,
         AudioAdvanced.callback_body env gain use_gate record s indata = Ok r ->
         exists cleaned audio_out,
           AudioAdvanced.spectral_subtraction indata
             (AudioAdvanced.noise_profile env) = Ok cleaned
           /\ AudioAdvanced.process_audio cleaned (AudioAdvanced.coeff_b env)
                (AudioAdvanced.coeff_a env) gain use_gate = Ok audio_out
           /\ AudioAdvanced.assign_column (length indata) audio_out
              = Ok (fst r)).
Proof.
  split; [|split].
  - intros audio b a gain use_gate out H.
    apply process_audio_stages in H as [normalized [filtered [Hn [Hf ->]]]].
    exists normalized, filtered. repeat split; auto.
    intros -> i Hi Hsmall.
    rewrite clip_scaled_nth by (now rewrite gated_length).
    simpl. rewrite noise_gate_nth, (Rltb_true _ _ Hsmall), Rmult_0_l.
    apply clip1_inside. unfold in_range. lra.
  - intros params fs b a indata out H. unfold Audio.callback in H.
    apply bind_Ok in H as [in_audio [H1 H]].
    apply bind_Ok in H as [filtered [H2 H]].
    exists in_audio, filtered. injection H as <-. auto.
  - intros env gain use_gate record s indata r H.
    unfold AudioAdvanced.callback_body in H.
    apply bind_Ok in H as [cleaned [H1 H]].
    apply bind_Ok in H as [audio_out [H2 H]].
    apply bind_Ok in H as [outdata [H3 H]].
    apply bind_Ok in H as [buffer [_ H]].
    exists cleaned, audio_out. apply Ok_inj in H. subst r. auto.
Qed.

Lemma attenuated_unit :
  (1 / 100 * (1 / (Rabs 1 + AudioAdvanced.epsilon)) + 0 - 0) / 1
  = 10000 / 1000001.
Proof. rewrite Rabs_R1. unfold AudioAdvanced.epsilon. field. Qed.

Lemma normalized_unit :
  1 / (Rabs 1 + AudioAdvanced.epsilon) = 1000000 / 1000001.
Proof. rewrite Rabs_R1. unfold AudioAdvanced.epsilon. field. Qed.

(** One full-scale sample through an attenuating filter: the code gates the
    attenuated value to zero. *)
Lemma process_audio_attenuated :
  AudioAdvanced.process_audio [1] [1 / 100] [1] 1 true = Ok [0].
Proof.
  unfold AudioAdvanced.process_audio, AudioAdvanced.normalize_audio,
    Numpy.max, Numpy.abs.
  cbn [map fold_left bind].
  unfold Scipy.lfilter. rewrite Reqb_false by lra.
  cbn [Scipy.lfilter_loop Scipy.dot bind map Numpy.clip
       AudioAdvanced.noise_gate Numpy.where0].
  rewrite attenuated_unit.
  rewrite Rltb_true.
  - rewrite Rmult_0_l. do 2 f_equal. apply clip1_inside. unfold in_range. lra.
  - unfold AudioAdvanced.default_threshold. rewrite Rabs_pos_eq; lra.
Qed.

(** The same input through the stage order of the spec: the gate sees the
    full-scale sample and lets it through. *)
Lemma spec_process_attenuated :
  AudioAdvanced.spec_process [1] [1 / 100] [1] 1 true = Ok [10000 / 1000001].
Proof.
  unfold AudioAdvanced.spec_process, AudioAdvanced.normalize_audio,
    Numpy.max, Numpy.abs.
  cbn [map fold_left bind AudioAdvanced.noise_gate Numpy.where0].
  rewrite normalized_unit.
  rewrite Rltb_false
    by (unfold AudioAdvanced.default_threshold; rewrite Rabs_pos_eq; lra).
  unfold Scipy.lfilter. rewrite Reqb_false by lra.
  cbn [Scipy.lfilter_loop Scipy.dot bind map Numpy.clip].
  do 2 f_equal.
  replace ((1 / 100 * (1000000 / 1000001) + 0 - 0) / 1 * 1)
    with (10000 / 1000001) by (field; lra).
  apply clip1_inside. unfold in_range. lra.
Qed.

(** The code does not compute what the documented stage order computes: on
    this input the gate, run after the filter, silences the block, whereas
    run before the filter it would not. *)
Lemma gate_before_filter_refuted :
  AudioAdvanced.process_audio [1] [1 / 100] [1] 1 true
  <> AudioAdvanced.spec_process [1] [1 / 100] [1] 1 true.
Proof.
  rewrite process_audio_attenuated, spec_process_attenuated.
  intros H. injection H as H. lra.
Qed.

Lemma gate_follows_filter_witness :
  exists normalized filtered,
    AudioAdvanced.normalize_audio [1] = Ok normalized
    /\ Scipy.lfilter [1 / 100] [1] normalized = Ok filtered
    /\ [0] = Numpy.clip (scaled 1 (gated true filtered)) (-1) 1
    /\ (true = true ->
        forall i, (i < length filtered)%nat ->
                  Rabs (nth i filtered 0) < AudioAdvanced.default_threshold ->
                  nth i [0] 0 = 0).
Proof.
  apply (proj1 gate_follows_filter [1] [1 / 100] [1] 1 true [0]).
  exact process_audio_attenuated.
Defined.

(** ** Spectral subtraction *)

Lemma rfft_Ok (x : block) :
  x <> [] ->
  Numpy.rfft x = Ok (map (Numpy.dft_bin x) (seq 0 (length x / 2 + 1))).
Proof.
  intros H. unfold Numpy.rfft. destruct x; [contradiction | reflexivity].
Qed.

Lemma rfft_empty : Numpy.rfft [] = Raise ValueError.
Proof. reflexivity. Qed.

Lemma irfft_Ok (X : list Numpy.complex) :
  (2 <= length X)%nat ->
  Numpy.irfft X
  = Ok (map (Numpy.idft_sample X (2 * (length X - 1)))
            (seq 0 (2 * (length X - 1)))).
Proof.
  intros H. unfold Numpy.irfft.
  destruct (2 * (length X - 1))%nat eqn:E; [lia | reflexivity].
Qed.

Lemma irfft_short (X : list Numpy.complex) :
  (length X <= 1)%nat -> Numpy.irfft X = Raise ValueError.
Proof.
  intros H. unfold Numpy.irfft.
  destruct (2 * (length X - 1))%nat eqn:E; [reflexivity | lia].
Qed.

Lemma broadcast2_same {A B C : Type} (f : A -> B -> C) x y :
  length x = length y ->
  Numpy.broadcast2 f x y = Ok (map (fun p => f (fst p) (snd p)) (combine x y)).
Proof.
  intros H. unfold Numpy.broadcast2. now rewrite H, Nat.eqb_refl.
Qed.

Lemma map_combine_length {A B C : Type} (f : A * B -> C) x y :
  length x = length y -> length (map f (combine x y)) = length x.
Proof. intros H. rewrite length_map, length_combine. lia. Qed.

Lemma cleaned_spectrum_length (audio noise : block) :
  length (cleaned_spectrum audio noise) = (length audio / 2 + 1)%nat.
Proof.
  unfold cleaned_spectrum.
  repeat (rewrite ?length_map, ?length_combine, ?length_seq).
  lia.
Qed.

(** What [spectral_subtraction] computes on two sequences of one common
    length of at least two: [n/2 + 1] bins go in, [2 * (n/2)] samples come
    out. *)
Lemma spectral_subtraction_eq (audio noise : block) :
  length audio = length noise -> (2 <= length audio)%nat ->
  AudioAdvanced.spectral_subtraction audio noise
  = Ok (map (Numpy.idft_sample (cleaned_spectrum audio noise)
                               (2 * (length audio / 2)))
            (seq 0 (2 * (length audio / 2)))).
Proof.
  intros Hlen Hn. unfold AudioAdvanced.spectral_subtraction.
  assert (Ha : audio <> []) by (intros ->; simpl in Hn; lia).
  assert (Hz : noise <> []) by (intros ->; simpl in Hlen; lia).
  rewrite (rfft_Ok audio Ha), (rfft_Ok noise Hz). cbn [bind].
  rewrite <- Hlen.
  rewrite broadcast2_same by (now rewrite !length_map). cbn [bind].
  rewrite broadcast2_same
    by (rewrite length_map, map_combine_length; now rewrite !length_map).
  cbn [bind]. fold (cleaned_spectrum audio noise).
  assert (Hd : (1 <= length audio / 2)%nat).
  { change 1%nat with (2 / 2)%nat. apply Nat.Div0.div_le_mono. exact Hn. }
  rewrite irfft_Ok by (rewrite cleaned_spectrum_length; lia).
  rewrite cleaned_spectrum_length.
  replace (2 * (length audio / 2 + 1 - 1))%nat
    with (2 * (length audio / 2))%nat by lia.
  reflexivity.
Qed.

Lemma spectral_subtraction_shape (audio noise : block) :
  length audio = length noise -> (2 <= length audio)%nat ->
  exists out, AudioAdvanced.spectral_subtraction audio noise = Ok out
              /\ length out = (2 * (length audio / 2))%nat.
Proof.
  intros Hlen Hn. rewrite (spectral_subtraction_eq audio noise Hlen Hn).
  eexists. split; [reflexivity|]. now rewrite length_map, length_seq.
Qed.

(** C4 (the failing input). On the three-sample block [1, 0, 0] with a
    three-sample noise profile, [spectral_subtraction] returns two samples:
    [irfft] is called without the original length and rounds odd lengths
    down. *)
Theorem spectral_subtraction_odd_block_shrinks :
  exists out,
    AudioAdvanced.spectral_subtraction [1; 0; 0] [0; 0; 0] = Ok out
    /\ length out = 2%nat.
Proof.
  destruct (spectral_subtraction_shape [1; 0; 0] [0; 0; 0]) as [out [H L]];
    [reflexivity | simpl; lia |].
  exists out. split; [exact H | exact L].
Qed.

(** C7 (the failing input). With an all-zero noise profile the three-sample
    block [1, 0, 0] does not come back: whatever the returned samples are,
    there are only two of them. *)
Theorem spectral_subtraction_zero_profile_not_identity :
  AudioAdvanced.spectral_subtraction [1; 0; 0] (Numpy.zeros 3) <> Ok [1; 0; 0].
Proof.
  destruct (spectral_subtraction_shape [1; 0; 0] (Numpy.zeros 3))
    as [out [H L]]; [reflexivity | simpl; lia |].
  rewrite H. intros E. injection E as ->. simpl in L. discriminate.
Qed.

(** Blocks of even length keep their length. *)
Lemma spectral_subtraction_even_length (audio noise : block) :
  length audio = length noise -> (2 <= length audio)%nat ->
  Nat.even (length audio) = true ->
  exists out, AudioAdvanced.spectral_subtraction audio noise = Ok out
              /\ length out = length audio.
Proof.
  intros Hlen Hn He.
  destruct (spectral_subtraction_shape audio noise Hlen Hn) as [out [H L]].
  exists out. split; [exact H|]. rewrite L.
  apply Nat.even_spec in He as [k Hk]. rewrite Hk.
  rewrite (Nat.mul_comm 2 k), Nat.div_mul by lia. lia.
Qed.

(** *** Silence through the transform *)

Lemma weighted_sum_silent (x : block) (ts : list nat) (f : nat -> R) :
  silent x ->
  Numpy.sum (map (fun p => fst p * f (snd p)) (combine x ts)) = 0.
Proof.
  unfold silent. intros H. revert ts.
  induction H as [|s x Hs _ IH]; intros [|t ts]; simpl; try reflexivity.
  rewrite Hs, IH. lra.
Qed.

Lemma dft_bin_silent (x : block) (k : nat) :
  silent x -> Numpy.dft_bin x k = (0, 0).
Proof.
  intros H. unfold Numpy.dft_bin.
  rewrite (weighted_sum_silent x _ (fun t => cos (Numpy.theta k t (length x))) H).
  rewrite (weighted_sum_silent x _ (fun t => sin (Numpy.theta k t (length x))) H).
  now rewrite Ropp_0.
Qed.

Lemma cabs_nonneg (z : Numpy.complex) : 0 <= Numpy.cabs z.
Proof. unfold Numpy.cabs. apply sqrt_pos. Qed.

Lemma cabs_origin : Numpy.cabs (0, 0) = 0.
Proof.
  unfold Numpy.cabs. simpl. rewrite Rmult_0_l, Rplus_0_l. apply sqrt_0.
Qed.

Lemma combine_map_map {A B C : Type} (f : A -> B) (g : A -> C) (l : list A) :
  combine (map f l) (map g l) = map (fun x => (f x, g x)) l.
Proof. induction l as [|x l IH]; simpl; [reflexivity | now rewrite IH]. Qed.

Lemma cleaned_spectrum_silent (audio noise : block) :
  silent audio ->
  Forall (fun z => z = (0, 0)) (cleaned_spectrum audio noise).
Proof.
  intros H. unfold cleaned_spectrum.
  rewrite !map_map, combine_map_map, map_map, combine_map_map, map_map.
  apply Forall_map, Forall_forall. intros k _. cbn [fst snd].
  rewrite (dft_bin_silent audio k H), cabs_origin.
  unfold Numpy.polar. rewrite Rmax_right.
  - now rewrite !Rmult_0_l.
  - pose proof (cabs_nonneg (Numpy.dft_bin noise k)). lra.
Qed.

Lemma nth_origin (X : list Numpy.complex) (k : nat) :
  Forall (fun z => z = (0, 0)) X -> nth k X (0, 0) = (0, 0).
Proof.
  intros H. revert k. induction H as [|z X Hz _ IH]; intros [|k]; simpl; auto.
Qed.

Lemma idft_sample_silent (X : list Numpy.complex) (n t : nat) :
  Forall (fun z => z = (0, 0)) X -> Numpy.idft_sample X n t = 0.
Proof.
  intros H. unfold Numpy.idft_sample, Numpy.re_at, Numpy.im_at.
  assert (Hs : forall ks,
             Numpy.sum (map (fun k => fst (nth k X (0, 0)) * cos (Numpy.theta k t n)
                                      - snd (nth k X (0, 0)) * sin (Numpy.theta k t n))
                            ks) = 0).
  { induction ks as [|k ks IH]; simpl; [reflexivity|].
    rewrite IH, (nth_origin X k H). simpl. lra. }
  rewrite Hs, !(nth_origin X _ H). simpl. unfold Rdiv.
  rewrite Rmult_0_r, Rmult_0_r, !Rplus_0_l. apply Rmult_0_l.
Qed.

(** A silent block of length at least two comes out silent, whatever the
    noise profile of that length is. *)
Lemma spectral_subtraction_silent (audio noise : block) :
  silent audio -> length audio = length noise -> (2 <= length audio)%nat ->
  AudioAdvanced.spectral_subtraction audio noise
  = Ok (Numpy.zeros (2 * (length audio / 2))).
Proof.
  intros Hs Hlen Hn. rewrite (spectral_subtraction_eq audio noise Hlen Hn).
  f_equal. rewrite (map_to_zero _ _ (fun t =>
    idft_sample_silent _ _ t (cleaned_spectrum_silent audio noise Hs))).
  now rewrite length_seq.
Qed.

(** ** Filter design *)

Lemma hamming_length (M : nat) : length (Scipy.hamming M) = M.
Proof.
  destruct M as [|[|M]]; try reflexivity.
  unfold Scipy.hamming. now rewrite length_map, length_seq.
Qed.

Lemma firwin_length numtaps cutoff fs pass_zero taps :
  Scipy.firwin numtaps cutoff fs pass_zero = Ok taps -> length taps = numtaps.
Proof.
  unfold Scipy.firwin.
  destruct (Rleb (cutoff / (fs / 2)) 0 || Rleb 1 (cutoff / (fs / 2)))%bool;
    [discriminate|].
  destruct (negb pass_zero && Nat.even numtaps)%bool; [discriminate|].
  intros H. injection H as <-.
  rewrite length_map, map_combine_length.
  - now rewrite length_map, length_seq.
  - now rewrite length_map, length_seq, hamming_length.
Qed.

Lemma firwin_rejects numtaps cutoff fs pass_zero :
  cutoff / (fs / 2) <= 0 \/ 1 <= cutoff / (fs / 2) ->
  Scipy.firwin numtaps cutoff fs pass_zero = Raise ValueError.
Proof.
  intros [H|H]; unfold Scipy.firwin.
  - now rewrite (Rleb_true _ _ H).
  - rewrite (Rleb_true _ _ H). now rewrite orb_true_r.
Qed.

Lemma firwin_even_highpass numtaps cutoff fs :
  Nat.even numtaps = true ->
  Scipy.firwin numtaps cutoff fs false = Raise ValueError.
Proof.
  intros H. unfold Scipy.firwin.
  destruct (Rleb _ 0 || Rleb 1 _)%bool; [reflexivity|].
  now rewrite H.
Qed.

Lemma firwin_accepts numtaps cutoff fs pass_zero :
  0 < cutoff / (fs / 2) < 1 ->
  pass_zero = true \/ Nat.even numtaps = false ->
  exists taps, Scipy.firwin numtaps cutoff fs pass_zero = Ok taps.
Proof.
  intros [H0 H1] Hp. unfold Scipy.firwin.
  rewrite (Rleb_false _ _ H0), (Rleb_false _ _ H1). cbn [orb].
  assert (E : (negb pass_zero && Nat.even numtaps)%bool = false).
  { destruct Hp as [-> | ->]; [reflexivity | apply andb_false_r]. }
  rewrite E. eexists. reflexivity.
Qed.

(** A cutoff outside [(0, fs/2)] is outside [(0, 1)] once divided by the
    Nyquist frequency. *)
Lemma normalised_outside (cutoff fs : R) :
  0 < fs -> ~ (0 < cutoff < fs / 2) ->
  cutoff / (fs / 2) <= 0 \/ 1 <= cutoff / (fs / 2).
Proof.
  intros Hfs Hout.
  assert (E : cutoff / (fs / 2) * (fs / 2) = cutoff) by (field; lra).
  destruct (Rle_dec (cutoff / (fs / 2)) 0) as [|H0]; [now left|].
  destruct (Rle_dec 1 (cutoff / (fs / 2))) as [|H1]; [now right|].
  exfalso. apply Hout. nra.
Qed.

Lemma normalised_inside (cutoff fs : R) :
  0 < cutoff < fs / 2 -> 0 < cutoff / (fs / 2) < 1.
Proof.
  intros [H0 H1].
  assert (Hfs : 0 < fs / 2) by lra.
  split.
  - apply Rdiv_lt_0_compat; lra.
  - apply (Rmult_lt_reg_r (fs / 2)); [exact Hfs|].
    replace (cutoff / (fs / 2) * (fs / 2)) with cutoff by (field; lra). lra.
Qed.

Lemma butter_rejects (N : nat) (Wn : list R) (fs : R) (btype : string) :
  0 < fs -> Exists (fun c => ~ (0 < c < fs / 2)) Wn ->
  Scipy.butter N Wn fs btype = Raise ValueError.
Proof.
  intros Hfs Hex. unfold Scipy.butter.
  destruct (Scipy.band_dict (Scipy.lower btype)); [|reflexivity].
  assert (E : existsb (fun w => (Rleb w 0 || Rleb 1 w)%bool)
                      (map (fun w => 2 * w / fs) Wn) = true).
  { apply existsb_exists. apply Exists_exists in Hex as [c [Hin Hc]].
    exists (2 * c / fs). split; [exact (in_map (fun w => 2 * w / fs) Wn c Hin)|].
    replace (2 * c / fs) with (c / (fs / 2)) by (field; lra).
    destruct (normalised_outside c fs Hfs Hc) as [H|H].
    - now rewrite (Rleb_true _ _ H).
    - rewrite (Rleb_true _ _ H). apply orb_true_r. }
  now rewrite E.
Qed.

(** C5. A cutoff outside the open interval [(0, fs/2)] makes filter design
    raise, for the FIR and the IIR family of [design_filter] and for every
    cutoff list given to [design_iir_filter]; no coefficients are returned
    and nothing is clamped.  In particular a 30000 Hz low-pass at 44100 Hz is
    refused. *)
Theorem design_rejects_cutoff_outside_band :
  (forall filter_type cutoff fs order use_fir,
      0 < fs -> ~ (0 < cutoff < fs / 2) ->
      Audio.design_filter filter_type cutoff fs order use_fir
      = Raise ValueError)
  /\ (forall filter_type cutoffs fs,
         0 < fs -> Exists (fun c => ~ (0 < c < fs / 2)) cutoffs ->
         AudioAdvanced.design_iir_filter filter_type cutoffs fs
         = Raise ValueError)
  /\ (forall order use_fir,
         Audio.design_filter "low" 30000 44100 order use_fir
         = Raise ValueError).
Proof.
  assert (H1 : forall filter_type cutoff fs order use_fir,
             0 < fs -> ~ (0 < cutoff < fs / 2) ->
             Audio.design_filter filter_type cutoff fs order use_fir
             = Raise ValueError).
  { intros filter_type cutoff fs order [|] Hfs Hout; unfold Audio.design_filter.
    - now rewrite (firwin_rejects _ _ _ _ (normalised_outside _ _ Hfs Hout)).
    - rewrite butter_rejects; [reflexivity | exact Hfs |].
      constructor. exact Hout. }
  repeat split.
  - exact H1.
  - intros filter_type cutoffs fs Hfs Hex. unfold AudioAdvanced.design_iir_filter.
    now apply butter_rejects.
  - intros order use_fir. apply H1; lra.
Qed.

Lemma design_rejects_cutoff_outside_band_witness :
  Audio.design_filter "high" (-5) 44100 101 true = Raise ValueError
  /\ AudioAdvanced.design_iir_filter "band" [150; 35000] 44100
     = Raise ValueError.
Proof.
  split.
  - apply (proj1 design_rejects_cutoff_outside_band); lra.
  - apply (proj1 (proj2 design_rejects_cutoff_outside_band)); [lra|].
    apply Exists_cons_tl, Exists_cons_hd. lra.
Defined.

(** *** The shape of a Butterworth design *)

Lemma times_linear_length c prev r :
  length (Scipy.times_linear c prev r) = S (length c).
Proof.
  revert prev. induction c as [|ck c IH]; intros prev; simpl.
  - reflexivity.
  - now rewrite IH.
Qed.

Lemma poly_from_length (roots c : list Numpy.complex) :
  c <> [] ->
  length (fold_left (fun c r => match c with
                                | [] => []
                                | c0 :: c' => c0 :: Scipy.times_linear c' c0 r
                                end) roots c)
  = (length c + length roots)%nat.
Proof.
  revert c. induction roots as [|r roots IH]; intros c Hc; simpl.
  - lia.
  - destruct c as [|c0 c']; [contradiction|].
    rewrite IH by discriminate. simpl. rewrite times_linear_length. lia.
Qed.

Lemma poly_length (roots : list Numpy.complex) :
  length (Scipy.poly roots) = S (length roots).
Proof. unfold Scipy.poly. now rewrite poly_from_length by discriminate. Qed.

Lemma poly_from_head (roots c : list Numpy.complex) (d : Numpy.complex) :
  hd d (fold_left (fun c r => match c with
                              | [] => []
                              | c0 :: c' => c0 :: Scipy.times_linear c' c0 r
                              end) roots c)
  = hd d c.
Proof.
  revert c. induction roots as [|r roots IH]; intros c; simpl.
  - reflexivity.
  - rewrite IH. now destruct c.
Qed.

(** [np.poly] builds a monic polynomial. *)
Lemma poly_monic (roots : list Numpy.complex) :
  hd (0, 0) (Scipy.poly roots) = (1, 0).
Proof. unfold Scipy.poly. now rewrite poly_from_head. Qed.

Lemma zpk2tf_shape (f : Scipy.zpk) :
  length (fst (Scipy.zpk2tf f)) = S (length (Scipy.zeros_of f))
  /\ length (snd (Scipy.zpk2tf f)) = S (length (Scipy.poles_of f))
  /\ hd 0 (snd (Scipy.zpk2tf f)) = 1.
Proof.
  unfold Scipy.zpk2tf. cbn [fst snd]. rewrite !length_map, !poly_length.
  repeat split.
  pose proof (poly_monic (Scipy.poles_of f)) as H.
  destruct (Scipy.poly (Scipy.poles_of f)) as [|c0 c]; simpl in *.
  - inversion H. lra.
  - now rewrite H.
Qed.

Ltac count_roots :=
  repeat (progress
            (cbn [Scipy.zeros_of Scipy.poles_of Scipy.bilinear_zpk
                  Scipy.lp2lp_zpk Scipy.lp2hp_zpk Scipy.lp2bp_zpk
                  Scipy.lp2bs_zpk Scipy.buttap length];
             unfold Scipy.relative_degree, Scipy.split_roots;
             rewrite ?length_app, ?length_map, ?repeat_length, ?length_seq));
  try lia.

(** Whatever [butter] returns is monic in the denominator, has [N + 1]
    coefficients on each side for one critical frequency and [2N + 1] for
    two. *)
Lemma butter_shape (N : nat) (Wn : list R) (fs : R) (btype : string) b a :
  Scipy.butter N Wn fs btype = Ok (b, a) ->
  hd 0 a = 1
  /\ (length Wn = 1%nat \/ length Wn = 2%nat)
  /\ (length Wn = 1%nat -> length b = S N /\ length a = S N)
  /\ (length Wn = 2%nat -> length b = S (2 * N) /\ length a = S (2 * N)).
Proof.
  unfold Scipy.butter.
  destruct (Scipy.band_dict (Scipy.lower btype)) as [bt|]; [|discriminate].
  destruct (existsb _ _); [discriminate|].
  destruct Wn as [|w0 [|w1 [|w2 Wn]]]; cbn [map];
    destruct bt; try discriminate;
    try (destruct (Rltb _ _); [|discriminate]);
    intros H; apply Ok_inj in H;
    match type of H with
    | Scipy.zpk2tf ?f = _ =>
        destruct (zpk2tf_shape f) as [Lb [La Ha]]; rewrite H in Lb, La, Ha
    end;
    cbn [fst snd] in Lb, La, Ha;
    (split; [exact Ha|]);
    (split; [simpl; auto|]);
    split; intros HW; try discriminate HW;
    rewrite Lb, La; split; f_equal; count_roots.
Qed.

Lemma design_filter_iir_ignores_order filter_type cutoff fs order order' :
  Audio.design_filter filter_type cutoff fs order false
  = Audio.design_filter filter_type cutoff fs order' false.
Proof. reflexivity. Qed.

(** C8 (as amended). A FIR request that [design_filter] accepts returns
    exactly [order] taps and no denominator, and it is accepted when the
    cutoff lies in [(0, fs/2)] and the filter is low-pass or [order] is odd.
    An IIR request never looks at [order]: it is a Butterworth design of
    prototype order six, seven coefficients on each side from
    [design_filter], and from [design_iir_filter] seven for one cutoff and
    thirteen for a band given by two. *)
Theorem design_output_shape :
  (forall filter_type cutoff fs order b a,
      Audio.design_filter filter_type cutoff fs order true = Ok (b, a) ->
      length b = order /\ a = None)
  /\ (forall filter_type cutoff fs order,
         0 < cutoff < fs / 2 ->
         filter_type = "low"%string \/ Nat.odd order = true ->
         exists taps,
           Audio.design_filter filter_type cutoff fs order true
           = Ok (taps, None)
           /\ length taps = order)
  /\ (forall filter_type cutoff fs order order',
         Audio.design_filter filter_type cutoff fs order false
         = Audio.design_filter filter_type cutoff fs order' false)
  /\ (forall filter_type cutoff fs order b a,
         Audio.design_filter filter_type cutoff fs order false = Ok (b, a) ->
         length b = 7%nat
         /\ exists a', a = Some a' /\ length a' = 7%nat /\ hd 0 a' = 1)
  /\ (forall filter_type cutoffs fs b a,
         AudioAdvanced.design_iir_filter filter_type cutoffs fs = Ok (b, a) ->
         (length cutoffs = 1%nat -> length b = 7%nat /\ length a = 7%nat)
         /\ (length cutoffs = 2%nat -> length b = 13%nat /\ length a = 13%nat)).
Proof.
  split; [|split; [|split; [|split]]].
  - intros filter_type cutoff fs order b a H. unfold Audio.design_filter in H.
    apply bind_Ok in H as [taps [Hf H]]. injection H as <- <-.
    split; [eapply firwin_length; exact Hf | reflexivity].
  - intros filter_type cutoff fs order Hc Hp. unfold Audio.design_filter.
    destruct (firwin_accepts order cutoff fs (String.eqb filter_type "low")
                (normalised_inside _ _ Hc)) as [taps Ht].
    { destruct Hp as [-> | Ho]; [now left | right].
      rewrite <- Nat.negb_odd, Ho. reflexivity. }
    exists taps. rewrite Ht. split; [reflexivity|].
    eapply firwin_length; exact Ht.
  - intros. reflexivity.
  - intros filter_type cutoff fs order b a H. unfold Audio.design_filter in H.
    apply bind_Ok in H as [[b' a'] [Hb H]]. injection H as <- <-.
    destruct (butter_shape _ _ _ _ _ _ Hb) as [Ha [_ [H1 _]]].
    destruct (H1 eq_refl) as [Lb La]. cbn [fst snd].
    split; [exact Lb|]. exists a'. auto.
  - intros filter_type cutoffs fs b a H. unfold AudioAdvanced.design_iir_filter in H.
    destruct (butter_shape _ _ _ _ _ _ H) as [_ [_ [H1 H2]]].
    split; [exact H1 | exact H2].
Qed.

(** A high-pass FIR request with an even order and a valid cutoff is refused
    instead of answered with that many taps. *)
Lemma design_even_highpass_refused :
  0 < 4000 < 44100 / 2
  /\ Audio.design_filter "high" 4000 44100 100 true = Raise ValueError.
Proof.
  split; [lra|]. unfold Audio.design_filter.
  change (String.eqb "high" "low") with false.
  now rewrite firwin_even_highpass.
Qed.

Lemma design_output_shape_witness :
  exists taps,
    Audio.design_filter "low" 4000 44100 101 true = Ok (taps, None)
    /\ length taps = 101%nat.
Proof.
  apply (proj1 (proj2 design_output_shape) "low"%string 4000 44100 101%nat).
  - lra.
  - left. reflexivity.
Defined.

(** ** The callback's three reads *)

Section Reads.

Import AudioAdvanced.

Lemma seen_in_incl (h h' : list Widgets) (r : reads) :
  incl h h' -> seen_in h r -> seen_in h' r.
Proof.
  intros Hi. destruct r as [|g|g u|g u rec]; simpl; auto.
  - intros [w [Hw E]]. exists w. auto.
  - intros [[w [Hw E]] [w' [Hw' E']]]. split; [exists w | exists w']; auto.
  - intros [[w [Hw E]] [[w' [Hw' E']] [w'' [Hw'' E'']]]].
    repeat split; [exists w | exists w' | exists w'']; auto.
Qed.

Lemma read_next_seen (h : list Widgets) (w : Widgets) (r : reads) :
  In w h -> seen_in h r -> seen_in h (read_next w r).
Proof.
  intros Hw. destruct r as [|g|g u|g u rec]; simpl.
  - intros _. exists w. auto.
  - intros Hg. split; [exact Hg | exists w; auto].
  - intros [Hg Hu]. repeat split; [exact Hg | exact Hu | exists w; auto].
  - auto.
Qed.

Lemma run_seen (schedule : list turn) :
  forall (st : Widgets * reads) (past : list Widgets),
    seen_in past (snd st) ->
    seen_in (past ++ history st schedule) (snd (run st schedule)).
Proof.
  induction schedule as [|t rest IH]; intros st past H.
  - simpl. eapply seen_in_incl; [|exact H]. apply incl_appl, incl_refl.
  - change (run st (t :: rest)) with (run (step st t) rest).
    change (history st (t :: rest))
      with ([fst st] ++ history (step st t) rest).
    rewrite app_assoc. apply IH.
    assert (H' : seen_in (past ++ [fst st]) (snd st)).
    { eapply seen_in_incl; [|exact H]. apply incl_appl, incl_refl. }
    destruct t as [|c]; simpl.
    + apply read_next_seen; [|exact H'].
      apply in_or_app. right. now left.
    + exact H'.
Qed.




End Reads.









(** ** Recording *)

Lemma roll_left_length {A : Type} (x : list A) (k : nat) :
  length (Numpy.roll_left x k) = length x.
Proof.
  unfold Numpy.roll_left. destruct (length x) as [|n] eqn:E; [exact E|].
  rewrite length_app, length_skipn, length_firstn, E.
  pose proof (Nat.mod_upper_bound k (S n)). lia.
Qed.

Lemma assign_tail_Ok (x v : block) (k : nat) :
  (0 < k <= length x)%nat -> length v = k ->
  Numpy.assign_tail x k v = Ok (firstn (length x - k) x ++ v).
Proof.
  intros [H0 H1] Hv. unfold Numpy.assign_tail.
  apply Nat.ltb_lt in H0. apply Nat.leb_le in H1 as H1'.
  rewrite H0, H1'. cbn [andb].
  replace (length x - (length x - k))%nat with k by lia.
  now rewrite Hv, Nat.eqb_refl.
Qed.

Lemma assign_column_Ok (v : block) :
  AudioAdvanced.assign_column (length v) v = Ok v.
Proof. unfold AudioAdvanced.assign_column. now rewrite Nat.eqb_refl. Qed.

(** A callback whose stages return a block of the input's length succeeds,
    keeps the rolling buffer's size and appends that block exactly when the
    record flag it read is set. *)
Lemma callback_body_Ok env gain use_gate record s indata cleaned audio_out :
  AudioAdvanced.spectral_subtraction indata (AudioAdvanced.noise_profile env)
  = Ok cleaned ->
  AudioAdvanced.process_audio cleaned (AudioAdvanced.coeff_b env)
    (AudioAdvanced.coeff_a env) gain use_gate = Ok audio_out ->
  length audio_out = length indata ->
  (0 < length indata <= length (AudioAdvanced.realtime_buffer s))%nat ->
  exists buffer,
    AudioAdvanced.callback_body env gain use_gate record s indata
    = Ok (audio_out,
          {| AudioAdvanced.realtime_buffer := buffer;
             AudioAdvanced.recorded_audio :=
               if record then AudioAdvanced.recorded_audio s ++ [audio_out]
               else AudioAdvanced.recorded_audio s |})
    /\ length buffer = length (AudioAdvanced.realtime_buffer s).
Proof.
  intros Hc Hp Hl Hfit. unfold AudioAdvanced.callback_body.
  rewrite Hc. cbn [bind]. rewrite Hp. cbn [bind].
  rewrite <- Hl, assign_column_Ok. cbn [bind].
  rewrite assign_tail_Ok by (rewrite ?roll_left_length; lia || reflexivity).
  cbn [bind].
  set (rolled := Numpy.roll_left (AudioAdvanced.realtime_buffer s)
                                 (length audio_out)).
  exists (firstn (length rolled - length audio_out) rolled ++ audio_out).
  split.
  - destruct record; reflexivity.
  - rewrite length_app, length_firstn. unfold rolled.
    rewrite !roll_left_length. lia.
Qed.

Lemma concatenate_Ok (xs : list block) :
  xs <> [] -> Numpy.concatenate xs = Ok (concat xs).
Proof. destruct xs; [contradiction | reflexivity]. Qed.

Lemma flush_unticked env w s :
  AudioAdvanced.record_var w = false -> AudioAdvanced.flush env w s = Ok None.
Proof. intros H. unfold AudioAdvanced.flush. now rewrite H. Qed.

Lemma flush_ticked env w s :
  AudioAdvanced.record_var w = true -> AudioAdvanced.recorded_audio s <> [] ->
  AudioAdvanced.flush env w s
  = Ok (Some {| AudioAdvanced.path := "realtime_recorded.wav";
                AudioAdvanced.data := concat (AudioAdvanced.recorded_audio s);
                AudioAdvanced.samplerate := AudioAdvanced.fs env |}).
Proof.
  intros H Hne. unfold AudioAdvanced.flush.
  now rewrite H, (concatenate_Ok _ Hne).
Qed.

(** With the box ticked and nothing recorded, [np.concatenate] has no array
    to join and the thread dies on the exception. *)
Lemma flush_ticked_empty env w s :
  AudioAdvanced.record_var w = true -> AudioAdvanced.recorded_audio s = [] ->
  AudioAdvanced.flush env w s = Raise ValueError.
Proof. intros H He. unfold AudioAdvanced.flush. now rewrite H, He. Qed.

(** When every callback returned, the session at the end of the sleep is the
    one the callbacks and the control events built. *)
Lemma session_end_of_run env (events : list AudioAdvanced.event) :
  forall w s w' s',
    AudioAdvanced.run_stream env w s events = Ok (w', s') ->
    AudioAdvanced.session_end env true w s events = (w', s').
Proof.
  induction events as [|[indata|c] events IH]; intros w s w' s' H.
  - apply Ok_inj in H. now symmetry.
  - cbn [AudioAdvanced.run_stream] in H. cbn [AudioAdvanced.session_end].
    destruct (AudioAdvanced.audio_callback env w s indata) as [r|e];
      [|discriminate]. cbn [bind] in H. now apply IH.
  - cbn [AudioAdvanced.run_stream] in H. cbn [AudioAdvanced.session_end].
    now apply IH.
Qed.

Lemma stream_thread_of_run env w s events w' s' :
  AudioAdvanced.run_stream env w s events = Ok (w', s') ->
  AudioAdvanced.stream_thread env w s events = AudioAdvanced.flush env w' s'.
Proof.
  intros H. unfold AudioAdvanced.stream_thread.
  now rewrite (session_end_of_run env events w s w' s' H).
Qed.

(** C9 (as amended).  Three blocks of length [L] appended in the order
    [B1], [B2], [B3] to an empty recording are written out, when the record
    box is ticked as the sleep ends, as one buffer of length [3L] that is
    [B1] followed by [B2] followed by [B3]; when the box is unticked at that
    moment nothing is written. *)
Theorem flush_concatenates_in_arrival_order env w s (B1 B2 B3 : block) (L : nat) :
  AudioAdvanced.recorded_audio s = [] ->
  length B1 = L -> length B2 = L -> length B3 = L ->
  let s3 := AudioAdvanced.append
              (AudioAdvanced.append (AudioAdvanced.append s B1) B2) B3 in
  (AudioAdvanced.record_var w = true ->
   exists artifact,
     AudioAdvanced.flush env w s3 = Ok (Some artifact)
     /\ AudioAdvanced.data artifact = B1 ++ B2 ++ B3
     /\ length (AudioAdvanced.data artifact) = (3 * L)%nat)
  /\ (AudioAdvanced.record_var w = false ->
      AudioAdvanced.flush env w s3 = Ok None).
Proof.
  intros Hs L1 L2 L3 s3. split.
  - intros Hw. eexists. split; [|split].
    + rewrite flush_ticked; [reflexivity | exact Hw |].
      unfold s3. cbn [AudioAdvanced.append AudioAdvanced.recorded_audio].
      rewrite Hs. discriminate.
    + unfold s3.
      cbn [AudioAdvanced.data AudioAdvanced.append AudioAdvanced.recorded_audio].
      rewrite Hs. simpl. now rewrite app_nil_r.
    + unfold s3.
      cbn [AudioAdvanced.data AudioAdvanced.append AudioAdvanced.recorded_audio].
      rewrite Hs. simpl. rewrite app_nil_r, !length_app. lia.
  - apply flush_unticked.
Qed.

Lemma flush_concatenates_in_arrival_order_witness :
  let env := {| AudioAdvanced.fs := 8; AudioAdvanced.blocksize := 2;
                AudioAdvanced.coeff_b := [1]; AudioAdvanced.coeff_a := [1];
                AudioAdvanced.noise_profile := [0; 0] |} in
  let s3 := AudioAdvanced.append
              (AudioAdvanced.append
                 (AudioAdvanced.append
                    {| AudioAdvanced.realtime_buffer := [0; 0; 0; 0];
                       AudioAdvanced.recorded_audio := [] |}
                    [1; 0])
                 [0; 1])
              [1; 1] in
  exists artifact,
    AudioAdvanced.flush env
      {| AudioAdvanced.gain_slider := 3; AudioAdvanced.noise_gate_var := true;
         AudioAdvanced.record_var := true |} s3
    = Ok (Some artifact)
    /\ AudioAdvanced.data artifact = [1; 0] ++ [0; 1] ++ [1; 1]
    /\ length (AudioAdvanced.data artifact) = (3 * 2)%nat.
Proof.
  intros env s3.
  apply (proj1 (flush_concatenates_in_arrival_order env
                  {| AudioAdvanced.gain_slider := 3;
                     AudioAdvanced.noise_gate_var := true;
                     AudioAdvanced.record_var := true |}
                  {| AudioAdvanced.realtime_buffer := [0; 0; 0; 0];
                     AudioAdvanced.recorded_audio := [] |}
                  [1; 0] [0; 1] [1; 1] 2 eq_refl eq_refl eq_refl eq_refl)).
  reflexivity.
Defined.

(** Three blocks are appended in order, the record box is unticked when the
    sleep ends, and the flush yields no buffer at all. *)
Lemma appended_blocks_unwritten_when_unticked :
  let env := {| AudioAdvanced.fs := 44100; AudioAdvanced.blocksize := 2;
                AudioAdvanced.coeff_b := [1]; AudioAdvanced.coeff_a := [1];
                AudioAdvanced.noise_profile := [0; 0] |} in
  let s3 := AudioAdvanced.append
              (AudioAdvanced.append
                 (AudioAdvanced.append
                    {| AudioAdvanced.realtime_buffer := [0; 0; 0; 0];
                       AudioAdvanced.recorded_audio := [] |}
                    [1; 0])
                 [0; 1])
              [1; 1] in
  AudioAdvanced.recorded_audio s3 = [[1; 0]; [0; 1]; [1; 1]]
  /\ AudioAdvanced.flush env
       {| AudioAdvanced.gain_slider := 3; AudioAdvanced.noise_gate_var := true;
          AudioAdvanced.record_var := false |} s3
     = Ok None.
Proof. split; reflexivity. Qed.

(** C10 (as amended).  When the stream's sleep ends, the recording is written
    exactly when the record box is ticked at that moment and at least one
    block was recorded: unticked, nothing is written whatever was recorded;
    ticked with at least one recorded block, the artifact holds all recorded
    blocks joined in order; and an artifact never comes about in any other
    way.  This is what ends every streaming session. *)
Theorem flush_follows_record_box env w s :
  (AudioAdvanced.record_var w = false ->
   AudioAdvanced.flush env w s = Ok None)
  /\ (AudioAdvanced.record_var w = true ->
      AudioAdvanced.recorded_audio s <> [] ->
      AudioAdvanced.flush env w s
      = Ok (Some {| AudioAdvanced.path := "realtime_recorded.wav";
                    AudioAdvanced.data := concat (AudioAdvanced.recorded_audio s);
                    AudioAdvanced.samplerate := AudioAdvanced.fs env |}))
  /\ (forall artifact,
         AudioAdvanced.flush env w s = Ok (Some artifact) ->
         AudioAdvanced.record_var w = true
         /\ AudioAdvanced.recorded_audio s <> []
         /\ artifact
            = {| AudioAdvanced.path := "realtime_recorded.wav";
                 AudioAdvanced.data := concat (AudioAdvanced.recorded_audio s);
                 AudioAdvanced.samplerate := AudioAdvanced.fs env |})
  /\ (forall events,
         AudioAdvanced.stream_thread env w s events
         = AudioAdvanced.flush env
             (fst (AudioAdvanced.session_end env true w s events))
             (snd (AudioAdvanced.session_end env true w s events)))
  /\ (forall events w' s',
         AudioAdvanced.run_stream env w s events = Ok (w', s') ->
         AudioAdvanced.stream_thread env w s events
         = AudioAdvanced.flush env w' s').
Proof.
  split; [apply flush_unticked | split; [apply flush_ticked|]].
  split; [|split].
  - intros artifact H. unfold AudioAdvanced.flush in H.
    destruct (AudioAdvanced.record_var w); [|discriminate].
    destruct (AudioAdvanced.recorded_audio s) as [|blk rest]; [discriminate|].
    cbn [Numpy.concatenate bind] in H. apply Ok_inj in H.
    split; [reflexivity|]. split; [discriminate|]. congruence.
  - reflexivity.
  - intros events w' s' H. now apply stream_thread_of_run.
Qed.

Lemma flush_follows_record_box_witness :
  let env := {| AudioAdvanced.fs := 8; AudioAdvanced.blocksize := 2;
                AudioAdvanced.coeff_b := [1]; AudioAdvanced.coeff_a := [1];
                AudioAdvanced.noise_profile := [0; 0] |} in
  let s := {| AudioAdvanced.realtime_buffer := [0; 0; 0; 0];
              AudioAdvanced.recorded_audio := [[1; 0]; [0; 1]] |} in
  AudioAdvanced.flush env
    {| AudioAdvanced.gain_slider := 3; AudioAdvanced.noise_gate_var := true;
       AudioAdvanced.record_var := false |} s
  = Ok None
  /\ AudioAdvanced.flush env
       {| AudioAdvanced.gain_slider := 3; AudioAdvanced.noise_gate_var := true;
          AudioAdvanced.record_var := true |} s
     = Ok (Some {| AudioAdvanced.path := "realtime_recorded.wav";
                   AudioAdvanced.data := [1; 0; 0; 1];
                   AudioAdvanced.samplerate := 8 |}).
Proof.
  intros env s. split.
  - apply (proj1 (flush_follows_record_box env _ s)). reflexivity.
  - apply (proj1 (proj2 (flush_follows_record_box env _ s)));
      [reflexivity | discriminate].
Defined.

(** *** A whole session, from [realtime_process] to the end of the sleep *)

Lemma butter_default_band :
  exists b a, Scipy.butter 6 [150; 3500] 44100 "band" = Ok (b, a).
Proof.
  unfold Scipy.butter.
  change (Scipy.band_dict (Scipy.lower "band")) with (Some Scipy.bandpass).
  cbn [map existsb].
  rewrite !Rleb_false by lra. cbn [orb].
  rewrite Rltb_true by lra.
  eexists. eexists. apply f_equal. apply surjective_pairing.
Qed.

Lemma realtime_process_setup_Ok :
  exists b a,
    AudioAdvanced.realtime_process_setup
    = Ok ({| AudioAdvanced.fs := 44100; AudioAdvanced.blocksize := 512;
             AudioAdvanced.coeff_b := b; AudioAdvanced.coeff_a := a;
             AudioAdvanced.noise_profile := Numpy.zeros 512 |},
          {| AudioAdvanced.realtime_buffer := Numpy.zeros 44100;
             AudioAdvanced.recorded_audio := [] |})
    /\ length b = 13%nat /\ length a = 13%nat /\ hd 0 a = 1.
Proof.
  destruct butter_default_band as [b [a H]].
  exists b, a. split.
  - unfold AudioAdvanced.realtime_process_setup, AudioAdvanced.design_iir_filter.
    rewrite H. reflexivity.
  - destruct (butter_shape _ _ _ _ _ _ H) as [Ha [_ [_ H2]]].
    destruct (H2 eq_refl) as [Lb La]. auto.
Qed.

Lemma zeros_length (n : nat) : length (Numpy.zeros n) = n.
Proof. apply repeat_length. Qed.

Lemma twice_half_even (n : nat) : Nat.even n = true -> (2 * (n / 2))%nat = n.
Proof.
  intros H. apply Nat.even_spec in H as [k ->].
  rewrite (Nat.mul_comm 2 k), Nat.div_mul by lia. lia.
Qed.

(** A silent block of even length goes through the whole callback and comes
    out silent. *)
Lemma callback_body_silent env gain use_gate record s (n : nat) :
  AudioAdvanced.coeff_b env <> [] -> hd 0 (AudioAdvanced.coeff_a env) <> 0 ->
  AudioAdvanced.noise_profile env = Numpy.zeros n ->
  (2 <= n <= length (AudioAdvanced.realtime_buffer s))%nat ->
  Nat.even n = true ->
  exists buffer,
    AudioAdvanced.callback_body env gain use_gate record s (Numpy.zeros n)
    = Ok (Numpy.zeros n,
          {| AudioAdvanced.realtime_buffer := buffer;
             AudioAdvanced.recorded_audio :=
               if record then AudioAdvanced.recorded_audio s ++ [Numpy.zeros n]
               else AudioAdvanced.recorded_audio s |})
    /\ length buffer = length (AudioAdvanced.realtime_buffer s).
Proof.
  intros Hb Ha Hnoise Hn He.
  apply (callback_body_Ok env gain use_gate record s (Numpy.zeros n)
           (Numpy.zeros n) (Numpy.zeros n)).
  - rewrite Hnoise, spectral_subtraction_silent.
    + now rewrite zeros_length, twice_half_even.
    + apply silent_zeros.
    + reflexivity.
    + rewrite zeros_length. lia.
  - rewrite process_audio_silent.
    + now rewrite zeros_length.
    + intros E. apply (f_equal (@length R)) in E.
      rewrite zeros_length in E. simpl in E. lia.
    + exact Hb.
    + exact Ha.
    + apply silent_zeros.
  - reflexivity.
  - rewrite zeros_length. lia.
Qed.

Lemma block_fits_buffer : (2 <= 512 <= length (Numpy.zeros 44100))%nat.
Proof.
  rewrite zeros_length. split.
  - apply Nat.leb_le. reflexivity.
  - apply Nat.leb_le. vm_compute. reflexivity.
Qed.

(** The operator ticks the record box, one silent block is processed and
    recorded, the box is unticked, and the sleep ends: the recorded block is
    not written anywhere. *)
Lemma recorded_blocks_dropped_at_stop :
  let events := [AudioAdvanced.Control (AudioAdvanced.SetRecord true);
                 AudioAdvanced.Block (Numpy.zeros 512);
                 AudioAdvanced.Control (AudioAdvanced.SetRecord false)] in
  exists env s0 w s,
    AudioAdvanced.realtime_process_setup = Ok (env, s0)
    /\ AudioAdvanced.run_stream env AudioAdvanced.initial_widgets s0 events
       = Ok (w, s)
    /\ AudioAdvanced.recorded_audio s = [Numpy.zeros 512]
    /\ AudioAdvanced.stream_thread env AudioAdvanced.initial_widgets s0 events
       = Ok None.
Proof.
  intros events.
  destruct realtime_process_setup_Ok as [b [a [Hsetup [Lb [La Ha]]]]].
  set (env := {| AudioAdvanced.fs := 44100; AudioAdvanced.blocksize := 512;
                 AudioAdvanced.coeff_b := b; AudioAdvanced.coeff_a := a;
                 AudioAdvanced.noise_profile := Numpy.zeros 512 |}) in *.
  set (s0 := {| AudioAdvanced.realtime_buffer := Numpy.zeros 44100;
                AudioAdvanced.recorded_audio := [] |}) in *.
  destruct (callback_body_silent env 3 true true s0 512) as [buffer [Hcb _]].
  { cbn [env AudioAdvanced.coeff_b]. intros ->. discriminate Lb. }
  { cbn [env AudioAdvanced.coeff_a]. rewrite Ha. lra. }
  { reflexivity. }
  { exact block_fits_buffer. }
  { reflexivity. }
  assert (Hrun : AudioAdvanced.run_stream env AudioAdvanced.initial_widgets s0 events
                 = Ok ({| AudioAdvanced.gain_slider := 3;
                          AudioAdvanced.noise_gate_var := true;
                          AudioAdvanced.record_var := false |},
                       {| AudioAdvanced.realtime_buffer := buffer;
                          AudioAdvanced.recorded_audio := [Numpy.zeros 512] |})).
  { unfold events. cbn [AudioAdvanced.run_stream AudioAdvanced.apply_control
                        AudioAdvanced.initial_widgets AudioAdvanced.gain_slider
                        AudioAdvanced.noise_gate_var AudioAdvanced.record_var].
    unfold AudioAdvanced.audio_callback.
    cbn [AudioAdvanced.gain_slider AudioAdvanced.noise_gate_var
         AudioAdvanced.record_var].
    rewrite Hcb. reflexivity. }
  eexists env, s0, _, _. repeat split.
  - exact Hsetup.
  - exact Hrun.
  - reflexivity.
  - rewrite (stream_thread_of_run _ _ _ _ _ _ Hrun). reflexivity.
Qed.

(** The box ticked and the sleep over before any block arrived: the thread
    ends in an exception. *)
Lemma ticked_without_blocks_raises :
  exists env s0,
    AudioAdvanced.realtime_process_setup = Ok (env, s0)
    /\ AudioAdvanced.stream_thread env AudioAdvanced.initial_widgets s0
         [AudioAdvanced.Control (AudioAdvanced.SetRecord true)]
       = Raise ValueError.
Proof.
  destruct realtime_process_setup_Ok as [b [a [Hsetup _]]].
  eexists _, _. split; [exact Hsetup | reflexivity].
Qed.

(** * Further properties of the code *)

(** ** The noise gate *)

(** X1. [noise_gate] keeps the length, leaves no sample strictly between
    zero and the threshold in magnitude, and gating twice is gating once. *)
Theorem noise_gate_floor_and_idempotent (x : block) (t : R) :
  length (AudioAdvanced.noise_gate x t) = length x
  /\ Forall (fun s => s = 0 \/ t <= Rabs s) (AudioAdvanced.noise_gate x t)
  /\ AudioAdvanced.noise_gate (AudioAdvanced.noise_gate x t) t
     = AudioAdvanced.noise_gate x t.
Proof.
  unfold AudioAdvanced.noise_gate, Numpy.where0.
  split; [apply length_map | split].
  - induction x as [|s x IH]; simpl; constructor; [|exact IH].
    unfold Rltb. destruct (Rlt_dec (Rabs s) t); [now left | right; lra].
  - induction x as [|s x IH]; simpl; [reflexivity|]. rewrite IH. f_equal.
    destruct (Rlt_dec (Rabs s) t) as [Hlt|Hge].
    + rewrite (Rltb_true _ _ Hlt). now destruct (Rltb (Rabs 0) t).
    + rewrite (Rltb_false (Rabs s) t) by lra.
      now rewrite (Rltb_false (Rabs s) t) by lra.
Qed.

(** ** Normalisation *)

Lemma fold_Rmax_ge_in (l : list R) (a t : R) :
  In t l -> t <= fold_left Rmax l a.
Proof.
  revert a. induction l as [|u l IH]; intros a; simpl; [contradiction|].
  intros [<- | Hin].
  - eapply Rle_trans; [apply (Rmax_r a u) | apply fold_Rmax_ge].
  - now apply IH.
Qed.

Lemma abs_le_peak (x : block) (p s : R) :
  Numpy.max (Numpy.abs x) = Ok p -> In s x -> Rabs s <= p.
Proof.
  destruct x as [|s0 x]; simpl; [discriminate|]. intros H. apply Ok_inj in H.
  subst p. intros [<- | Hin].
  - apply fold_Rmax_ge.
  - apply fold_Rmax_ge_in. now apply in_map.
Qed.

Lemma normalize_audio_Ok (audio out : block) :
  AudioAdvanced.normalize_audio audio = Ok out ->
  exists p, Numpy.max (Numpy.abs audio) = Ok p /\ 0 <= p
            /\ out = map (fun s => s / (p + AudioAdvanced.epsilon)) audio.
Proof.
  unfold AudioAdvanced.normalize_audio. intros H.
  apply bind_Ok in H as [p [Hp H]]. apply Ok_inj in H.
  exists p. split; [exact Hp | split; [eapply peak_nonneg; exact Hp | now subst]].
Qed.

Lemma normalize_audio_length (audio out : block) :
  AudioAdvanced.normalize_audio audio = Ok out -> length out = length audio.
Proof.
  intros H. apply normalize_audio_Ok in H as [p [_ [_ ->]]]. apply length_map.
Qed.

(** X2. [normalize_audio] raises on the empty block; on any other block it
    returns a block of the same length in which every sample lies in
    [-1, 1]: no sample is larger in magnitude than the divisor, the peak
    plus 1e-6. *)
Theorem normalize_audio_within_full_scale :
  AudioAdvanced.normalize_audio [] = Raise ValueError
  /\ (forall audio, audio <> [] ->
        exists out, AudioAdvanced.normalize_audio audio = Ok out)
  /\ (forall audio out,
         AudioAdvanced.normalize_audio audio = Ok out ->
         length out = length audio /\ Forall in_range out).
Proof.
  split; [reflexivity | split].
  - intros audio H. destruct (normalize_total audio H) as [out [Ho _]].
    now exists out.
  - intros audio out H. split; [now apply normalize_audio_length|].
    apply normalize_audio_Ok in H as [p [Hp [Hp0 ->]]].
    apply Forall_map, Forall_forall. intros s Hs.
    pose proof (abs_le_peak audio p s Hp Hs) as Hle.
    assert (Hd : 0 < p + AudioAdvanced.epsilon)
      by (unfold AudioAdvanced.epsilon; lra).
    assert (Hq : Rabs (s / (p + AudioAdvanced.epsilon)) <= 1).
    { unfold Rdiv. rewrite Rabs_mult, (Rabs_pos_eq (/ _))
        by (left; now apply Rinv_0_lt_compat).
      apply (Rmult_le_reg_r (p + AudioAdvanced.epsilon)); [exact Hd|].
      rewrite Rmult_assoc, Rinv_l by lra.
      unfold AudioAdvanced.epsilon in *. lra. }
    unfold in_range. unfold Rabs in Hq.
    destruct (Rcase_abs (s / (p + AudioAdvanced.epsilon))); lra.
Qed.

Lemma normalize_audio_within_full_scale_witness :
  exists out, AudioAdvanced.normalize_audio [3; -4] = Ok out
              /\ length out = 2%nat /\ Forall in_range out.
Proof.
  destruct (proj1 (proj2 normalize_audio_within_full_scale) [3; -4])
    as [out H]; [discriminate|].
  exists out. split; [exact H|].
  exact (proj2 (proj2 normalize_audio_within_full_scale) [3; -4] out H).
Defined.

(** ** Gain and clip *)

Lemma clip1_opp (s : R) : Numpy.clip1 (-1) 1 (- s) = - Numpy.clip1 (-1) 1 s.
Proof. split_minmax; lra. Qed.

Lemma clip1_monotone (s t : R) :
  s <= t -> Numpy.clip1 (-1) 1 s <= Numpy.clip1 (-1) 1 t.
Proof. intros H. split_minmax; lra. Qed.

Lemma Rabs_le_in_range (v : R) : Rabs v <= 1 -> in_range v.
Proof.
  unfold in_range, Rabs. destruct (Rcase_abs v); lra.
Qed.

(** X3. [amplify] keeps the length; it is plain multiplication by the gain
    as long as no product leaves [-1, 1]; negating the input negates the
    output; and a block it produced passes through it unchanged at gain 1. *)
Theorem amplify_distorts_only_out_of_range (audio : block) (gain : R) :
  length (Audio.amplify audio gain) = length audio
  /\ (Forall (fun s => Rabs (s * gain) <= 1) audio ->
      Audio.amplify audio gain = map (fun s => s * gain) audio)
  /\ Audio.amplify (map Ropp audio) gain = map Ropp (Audio.amplify audio gain)
  /\ Audio.amplify (Audio.amplify audio gain) 1 = Audio.amplify audio gain.
Proof.
  unfold Audio.amplify, Numpy.clip. repeat split.
  - now rewrite !length_map.
  - intros H. rewrite map_map. apply map_ext_Forall.
    eapply Forall_impl; [|exact H]. intros s Hs. cbn beta.
    apply clip1_inside, Rabs_le_in_range, Hs.
  - rewrite !map_map. apply map_ext. intros s.
    rewrite <- clip1_opp. f_equal. ring.
  - rewrite !map_map. apply map_ext. intros s. rewrite Rmult_1_r.
    apply clip1_inside, clip1_in_range.
Qed.

Lemma amplify_distorts_only_out_of_range_witness :
  Audio.amplify [1 / 4; -1 / 2] 2 = map (fun s => s * 2) [1 / 4; -1 / 2].
Proof.
  apply (proj1 (proj2 (amplify_distorts_only_out_of_range [1 / 4; -1 / 2] 2))).
  apply Forall_cons; [|apply Forall_cons; [|apply Forall_nil]].
  - apply Rabs_le. lra.
  - apply Rabs_le. lra.
Defined.

(** ** Linear filtering *)

Lemma lfilter_loop_app b ar a0 (x x' : block) :
  forall xh yh,
    Scipy.lfilter_loop b ar a0 xh yh (x ++ x')
    = Scipy.lfilter_loop b ar a0 xh yh x
      ++ Scipy.lfilter_loop b ar a0 (rev x ++ xh)
           (rev (Scipy.lfilter_loop b ar a0 xh yh x) ++ yh) x'.
Proof.
  induction x as [|s x IH]; intros xh yh; simpl.
  - reflexivity.
  - rewrite IH. rewrite <- !app_assoc. reflexivity.
Qed.

Lemma apply_filter_Ok (x : block) b a y :
  Audio.apply_filter x b a = Ok y ->
  exists a0 ar,
    match a with None => [1] | Some a' => a' end = a0 :: ar
    /\ b <> [] /\ a0 <> 0
    /\ forall x', Audio.apply_filter x' b a
                  = Ok (Scipy.lfilter_loop b ar a0 [] [] x').
Proof.
  unfold Audio.apply_filter, Scipy.lfilter.
  destruct b as [|b0 b]; [discriminate|].
  destruct (match a with None => [1] | Some a' => a' end) as [|a0 ar];
    [discriminate|].
  unfold Reqb. destruct (Req_dec_T a0 0) as [|Hne]; [discriminate|].
  intros _. exists a0, ar. repeat split; [discriminate | exact Hne].
Qed.

(** X4. Filtering is causal: when [apply_filter] returns on a block, it
    returns on every extension of that block, and the output on the
    extension starts with the output on the block. *)
Theorem apply_filter_causal (x x' : block) b a y :
  Audio.apply_filter x b a = Ok y ->
  exists y', Audio.apply_filter (x ++ x') b a = Ok (y ++ y')
             /\ length y' = length x'.
Proof.
  intros H. destruct (apply_filter_Ok x b a y H) as [a0 [ar [_ [_ [_ Hall]]]]].
  rewrite Hall in H. apply Ok_inj in H. subst y.
  rewrite Hall, lfilter_loop_app. eexists. split; [reflexivity|].
  apply lfilter_loop_length.
Qed.

Lemma apply_filter_causal_witness :
  exists y y', Audio.apply_filter ([1; 2] ++ [3]) [1; 1] None = Ok (y ++ y')
               /\ length y' = 1%nat.
Proof.
  destruct (lfilter_total [1; 1] [1] [1; 2]) as [y [Hy _]];
    [discriminate | simpl; lra |].
  destruct (apply_filter_causal [1; 2] [3] [1; 1] None y Hy) as [y' H].
  exists y, y'. exact H.
Defined.

(** ** The [audio.py] pipeline *)

Lemma butter_single_accepts (N : nat) (c fs : R) (btype : string) bt :
  0 < c < fs / 2 ->
  Scipy.band_dict (Scipy.lower btype) = Some bt ->
  bt = Scipy.lowpass \/ bt = Scipy.highpass ->
  exists b a, Scipy.butter N [c] fs btype = Ok (b, a)
              /\ hd 0 a = 1 /\ length b = S N /\ length a = S N.
Proof.
  intros Hc Hbt Hkind.
  assert (Hfs : 0 < fs) by lra.
  destruct (normalised_inside c fs Hc) as [H0 H1].
  assert (E : exists ba, Scipy.butter N [c] fs btype = Ok ba).
  { unfold Scipy.butter. rewrite Hbt. cbn [map existsb].
    replace (2 * c / fs) with (c / (fs / 2)) by (field; lra).
    rewrite (Rleb_false _ _ H0), (Rleb_false _ _ H1). cbn [orb].
    destruct Hkind as [-> | ->]; eexists; reflexivity. }
  destruct E as [[b a] E]. exists b, a.
  destruct (butter_shape _ _ _ _ _ _ E) as [Ha [_ [H _]]].
  destruct (H eq_refl) as [Lb La]. auto.
Qed.

Lemma highpass_noise_removal_Ok (audio : block) (fs : R) :
  200 < fs ->
  exists out, Audio.highpass_noise_removal audio fs 100 = Ok out
              /\ length out = length audio /\ (silent audio -> silent out).
Proof.
  intros Hfs. unfold Audio.highpass_noise_removal.
  destruct (butter_single_accepts 4 100 fs "high" Scipy.highpass)
    as [b [a [E [Ha [Lb La]]]]]; [lra | reflexivity | now right |].
  rewrite E. cbn [bind fst snd].
  apply lfilter_total.
  - intros ->. discriminate Lb.
  - rewrite Ha. lra.
Qed.

Lemma highpass_noise_removal_length (audio out : block) (fs cutoff : R) :
  Audio.highpass_noise_removal audio fs cutoff = Ok out ->
  length out = length audio.
Proof.
  unfold Audio.highpass_noise_removal. intros H.
  apply bind_Ok in H as [ba [_ H]]. now apply lfilter_length in H.
Qed.

(** X7. High-pass noise removal needs a sample rate above 200 Hz: at or
    below it the fixed 100 Hz cutoff is not under the Nyquist frequency and
    the call raises; above it the call returns, for a non-empty block, a
    block of the input's length, silent when the input is. *)
Theorem highpass_noise_removal_needs_rate (audio : block) (fs : R) :
  (0 < fs <= 200 ->
   Audio.highpass_noise_removal audio fs 100 = Raise ValueError)
  /\ (200 < fs -> audio <> [] ->
      exists out, Audio.highpass_noise_removal audio fs 100 = Ok out
                  /\ length out = length audio
                  /\ (silent audio -> silent out)).
Proof.
  split.
  - intros [H0 H1]. unfold Audio.highpass_noise_removal.
    rewrite butter_rejects; [reflexivity | exact H0 |].
    constructor. lra.
  - intros Hfs _. now apply highpass_noise_removal_Ok.
Qed.

Lemma highpass_noise_removal_needs_rate_witness :
  Audio.highpass_noise_removal [1; 0] 200 100 = Raise ValueError
  /\ exists out, Audio.highpass_noise_removal [1; 0] 44100 100 = Ok out
                 /\ length out = 2%nat /\ (silent [1; 0] -> silent out).
Proof.
  split.
  - apply (proj1 (highpass_noise_removal_needs_rate [1; 0] 200)). lra.
  - apply (proj2 (highpass_noise_removal_needs_rate [1; 0] 44100));
      [lra | discriminate].
Defined.

Lemma design_filter_accepts (filter_type : string) (cutoff fs : R)
      (use_fir : bool) :
  0 < cutoff < fs / 2 ->
  filter_type = "low"%string \/ filter_type = "high"%string ->
  exists b a, Audio.design_filter filter_type cutoff fs 101 use_fir = Ok (b, a)
              /\ b <> []
              /\ hd 0 (match a with None => [1] | Some a' => a' end) = 1.
Proof.
  intros Hc Hft. unfold Audio.design_filter. destruct use_fir.
  - destruct (firwin_accepts 101 cutoff fs (String.eqb filter_type "low")
                (normalised_inside _ _ Hc)) as [taps Ht]; [now right|].
    rewrite Ht. cbn [bind]. exists taps, None. repeat split.
    apply firwin_length in Ht. intros ->. discriminate Ht.
  - assert (E : exists bt, Scipy.band_dict (Scipy.lower filter_type) = Some bt
                           /\ (bt = Scipy.lowpass \/ bt = Scipy.highpass)).
    { destruct Hft as [-> | ->]; eexists; (split; [reflexivity|]); auto. }
    destruct E as [bt [Hbt Hkind]].
    destruct (butter_single_accepts 6 cutoff fs filter_type bt Hc Hbt Hkind)
      as [b [a [E [Ha [Lb La]]]]].
    rewrite E. cbn [bind fst snd]. exists b, (Some a). repeat split.
    + intros ->. discriminate Lb.
    + exact Ha.
Qed.

(** X8. The file and microphone path of [audio.py] returns whenever its
    settings are valid: with a cutoff inside (0, fs/2), a low or high filter
    type and, if noise reduction is on, a rate above 200 Hz, it yields for a
    non-empty recording a block of the input's length with every sample in
    [-1, 1], for the FIR and the IIR family alike. *)
Theorem process_samples_total (params : Audio.Params) (audio : block) (fs : R) :
  audio <> [] ->
  0 < Audio.cutoff params < fs / 2 ->
  Audio.filter_type params = "low"%string
  \/ Audio.filter_type params = "high"%string ->
  (Audio.noise_reduction params = true -> 200 < fs) ->
  exists out, Audio.process_samples params audio fs = Ok out
              /\ length out = length audio /\ Forall in_range out.
Proof.
  intros _ Hc Hft Hnr. unfold Audio.process_samples.
  assert (E1 : exists audio',
             (if Audio.noise_reduction params
              then Audio.highpass_noise_removal audio fs 100
              else Ok audio) = Ok audio'
             /\ length audio' = length audio).
  { destruct (Audio.noise_reduction params).
    - destruct (highpass_noise_removal_Ok audio fs (Hnr eq_refl))
        as [out [H [L _]]]. now exists out.
    - now exists audio. }
  destruct E1 as [audio' [-> L1]]. cbn [bind].
  destruct (design_filter_accepts (Audio.filter_type params)
              (Audio.cutoff params) fs (Audio.use_fir params) Hc Hft)
    as [b [a [-> [Hb Ha]]]].
  cbn [bind fst snd]. unfold Audio.apply_filter.
  destruct (lfilter_total b (match a with None => [1] | Some a' => a' end)
              audio' Hb) as [filtered [-> [L2 _]]]; [rewrite Ha; lra|].
  cbn [bind]. eexists. split; [reflexivity|]. split.
  - unfold Audio.amplify. rewrite clip_length, length_map. lia.
  - apply clip_in_range.
Qed.

Lemma process_samples_total_witness :
  exists out,
    Audio.process_samples
      {| Audio.cutoff := 4000; Audio.gain := 2; Audio.duration := 5;
         Audio.filter_type := "high"; Audio.use_fir := true;
         Audio.noise_reduction := true |} [1; -1; 0] 44100 = Ok out
    /\ length out = 3%nat /\ Forall in_range out.
Proof.
  apply (process_samples_total
           {| Audio.cutoff := 4000; Audio.gain := 2; Audio.duration := 5;
              Audio.filter_type := "high"; Audio.use_fir := true;
              Audio.noise_reduction := true |} [1; -1; 0] 44100).
  - discriminate.
  - simpl. lra.
  - right. reflexivity.
  - intros _. lra.
Defined.

(** X9. The same path refuses a cutoff outside (0, fs/2): whatever the
    other settings are, nothing is returned. *)
Theorem process_samples_rejects_cutoff (params : Audio.Params) (audio : block)
        (fs : R) :
  0 < fs -> ~ (0 < Audio.cutoff params < fs / 2) ->
  Audio.process_samples params audio fs = Raise ValueError.
Proof.
  intros Hfs Hout. unfold Audio.process_samples.
  destruct (if Audio.noise_reduction params
            then Audio.highpass_noise_removal audio fs 100
            else Ok audio) as [audio'|[]]; [|reflexivity].
  cbn [bind]. unfold Audio.design_filter. destruct (Audio.use_fir params).
  - now rewrite (firwin_rejects _ _ _ _ (normalised_outside _ _ Hfs Hout)).
  - rewrite butter_rejects; [reflexivity | exact Hfs |]. now constructor.
Qed.

Lemma process_samples_rejects_cutoff_witness :
  Audio.process_samples
    {| Audio.cutoff := 10000; Audio.gain := 2; Audio.duration := 5;
       Audio.filter_type := "low"; Audio.use_fir := false;
       Audio.noise_reduction := false |} [1; -1; 0] 16000 = Raise ValueError.
Proof.
  apply process_samples_rejects_cutoff; simpl; lra.
Defined.

(** ** Length and the gate's floor *)

Lemma process_audio_length audio b a gain use_gate out :
  AudioAdvanced.process_audio audio b a gain use_gate = Ok out ->
  length out = length audio.
Proof.
  intros H. apply process_audio_stages in H as [n [f [Hn [Hf ->]]]].
  rewrite clip_length. unfold scaled. rewrite length_map, gated_length.
  apply lfilter_length in Hf. apply normalize_audio_length in Hn. lia.
Qed.

(** X10. Conditioning never changes the number of samples: whatever
    [process_audio], the [audio.py] callback or the file path return has
    exactly the input's length. *)
Theorem conditioning_keeps_length :
  (forall audio b a gain use_gate out,
      AudioAdvanced.process_audio audio b a gain use_gate = Ok out ->
      length out = length audio)
  /\ (forall params fs b a indata out,
         Audio.callback params fs b a indata = Ok out ->
         length out = length indata)
  /\ (forall params audio fs out,
         Audio.process_samples params audio fs = Ok out ->
         length out = length audio).
Proof.
  assert (Hpre : forall (flag : bool) audio fs audio',
             (if flag then Audio.highpass_noise_removal audio fs 100
              else Ok audio) = Ok audio' -> length audio' = length audio).
  { intros [|] audio fs audio' H.
    - now apply highpass_noise_removal_length in H.
    - apply Ok_inj in H. now subst. }
  repeat split.
  - apply process_audio_length.
  - intros params fs b a indata out H. unfold Audio.callback in H.
    apply bind_Ok in H as [x [H1 H]]. apply bind_Ok in H as [y [H2 H]].
    apply Ok_inj in H. subst out. apply Hpre in H1.
    apply lfilter_length in H2.
    unfold Audio.amplify. rewrite clip_length, length_map. lia.
  - intros params audio fs out H. unfold Audio.process_samples in H.
    apply bind_Ok in H as [x [H1 H]]. apply bind_Ok in H as [ba [_ H]].
    apply bind_Ok in H as [y [H2 H]].
    apply Ok_inj in H. subst out. apply Hpre in H1.
    apply lfilter_length in H2.
    unfold Audio.amplify. rewrite clip_length, length_map. lia.
Qed.

Lemma conditioning_keeps_length_witness : length [1] = length [1].
Proof.
  exact (proj1 conditioning_keeps_length [1] [1] [1] 10 false [1]
           process_audio_full_scale).
Defined.

Lemma clip1_abs (v : R) : Rabs (Numpy.clip1 (-1) 1 v) = Rmin 1 (Rabs v).
Proof.
  destruct (Rle_dec 1 v) as [Hhi|Hhi].
  - rewrite (clip1_above v Hhi), Rabs_R1, (Rabs_pos_eq v) by lra.
    now rewrite Rmin_left.
  - destruct (Rle_dec v (-1)) as [Hlo|Hlo].
    + assert (E : Numpy.clip1 (-1) 1 v = -1) by (split_minmax; lra).
      rewrite E, (Rabs_left v), (Rabs_left (-1)) by lra.
      rewrite Rmin_left; lra.
    + rewrite clip1_inside by (unfold in_range; lra).
      rewrite Rmin_right; [reflexivity|]. apply Rabs_le. lra.
Qed.

Lemma noise_gate_no_residue (x : block) (t : R) :
  Forall (fun s => s = 0 \/ t <= Rabs s) (AudioAdvanced.noise_gate x t).
Proof.
  unfold AudioAdvanced.noise_gate, Numpy.where0.
  induction x as [|s x IH]; simpl; constructor; [|exact IH].
  unfold Rltb. destruct (Rlt_dec (Rabs s) t); [now left | right; lra].
Qed.

(** X11. With the gate on, [process_audio] leaves no faint residue: every
    output sample is exactly zero or has magnitude at least
    [min(1, 0.015 * |gain|)]. *)
Theorem gated_output_floor audio b a gain out :
  AudioAdvanced.process_audio audio b a gain true = Ok out ->
  Forall (fun s => s = 0
                   \/ Rmin 1 (AudioAdvanced.default_threshold * Rabs gain)
                      <= Rabs s) out.
Proof.
  intros H. apply process_audio_stages in H as [n [f [_ [_ ->]]]].
  unfold Numpy.clip, scaled, gated. rewrite map_map.
  apply Forall_map.
  eapply Forall_impl;
    [|exact (noise_gate_no_residue f AudioAdvanced.default_threshold)].
  cbn beta. intros s [-> | Hs].
  - left. rewrite Rmult_0_l. apply clip1_inside. unfold in_range. lra.
  - right. rewrite clip1_abs, Rabs_mult.
    apply Rle_min_compat_l. apply Rmult_le_compat_r; [apply Rabs_pos | exact Hs].
Qed.

Lemma gated_output_floor_witness :
  Forall (fun s => s = 0
                   \/ Rmin 1 (AudioAdvanced.default_threshold * Rabs 1)
                      <= Rabs s) [0].
Proof.
  exact (gated_output_floor [1] [1 / 100] [1] 1 [0] process_audio_attenuated).
Defined.

(** ** More on spectral subtraction *)

Lemma irfft_inv (X : list Numpy.complex) (out : block) :
  Numpy.irfft X = Ok out ->
  (2 <= length X)%nat /\ length out = (2 * (length X - 1))%nat.
Proof.
  unfold Numpy.irfft. destruct (2 * (length X - 1))%nat as [|n] eqn:E;
    [discriminate|].
  intros H. apply Ok_inj in H. subst out.
  rewrite length_map, length_seq. lia.
Qed.

Lemma broadcast2_mismatch {A B C : Type} (f : A -> B -> C) x y :
  length x <> length y -> length x <> 1%nat -> length y <> 1%nat ->
  Numpy.broadcast2 f x y = Raise ValueError.
Proof.
  intros Hne Hx Hy. unfold Numpy.broadcast2.
  destruct (Nat.eqb_spec (length x) (length y)) as [E|_]; [contradiction|].
  destruct x as [|a [|a' x]]; destruct y as [|b [|b' y]]; simpl in *;
    try reflexivity; lia.
Qed.

Lemma spectral_subtraction_out_even (audio noise out : block) :
  AudioAdvanced.spectral_subtraction audio noise = Ok out ->
  Nat.even (length out) = true /\ (2 <= length out)%nat.
Proof.
  unfold AudioAdvanced.spectral_subtraction. intros H.
  apply bind_Ok in H as [spectrum [_ H]].
  apply bind_Ok in H as [noise_spectrum [_ H]].
  apply bind_Ok in H as [diff [_ H]].
  apply bind_Ok in H as [cleaned [_ H]].
  apply irfft_inv in H as [HX ->]. split; [|lia].
  rewrite Nat.even_mul. reflexivity.
Qed.

Lemma half_positive (n : nat) : (2 <= n)%nat -> (1 <= n / 2)%nat.
Proof.
  intros H. change 1%nat with (2 / 2)%nat. now apply Nat.Div0.div_le_mono.
Qed.

(** X12. What [spectral_subtraction] returns always has an even number of
    samples, at least two.  It raises when block and noise profile both have
    fewer than two samples, and when they have two or more each but a
    different number of frequency bins. *)
Theorem spectral_subtraction_output_shape :
  (forall audio noise out,
      AudioAdvanced.spectral_subtraction audio noise = Ok out ->
      Nat.even (length out) = true /\ (2 <= length out)%nat)
  /\ (forall audio noise,
         (length audio <= 1)%nat -> (length noise <= 1)%nat ->
         AudioAdvanced.spectral_subtraction audio noise = Raise ValueError)
  /\ (forall audio noise,
         (2 <= length audio)%nat -> (2 <= length noise)%nat ->
         (length audio / 2 <> length noise / 2)%nat ->
         AudioAdvanced.spectral_subtraction audio noise = Raise ValueError).
Proof.
  split; [exact spectral_subtraction_out_even | split].
  - intros [|s [|s' audio]] [|t [|t' noise]] Ha Hn; simpl in Ha, Hn;
      try lia; reflexivity.
  - intros audio noise Ha Hn Hne. unfold AudioAdvanced.spectral_subtraction.
    assert (Ea : audio <> []) by (intros ->; simpl in Ha; lia).
    assert (En : noise <> []) by (intros ->; simpl in Hn; lia).
    rewrite (rfft_Ok audio Ea), (rfft_Ok noise En). cbn [bind].
    pose proof (half_positive _ Ha). pose proof (half_positive _ Hn).
    rewrite broadcast2_mismatch; [reflexivity | | |];
      rewrite !length_map, !length_seq; lia.
Qed.

Lemma spectral_subtraction_output_shape_witness :
  AudioAdvanced.spectral_subtraction [1] [0] = Raise ValueError
  /\ AudioAdvanced.spectral_subtraction [1; 0; 0; 0] [0; 0]
     = Raise ValueError.
Proof.
  split.
  - apply (proj1 (proj2 spectral_subtraction_output_shape)); simpl; lia.
  - apply (proj2 (proj2 spectral_subtraction_output_shape)).
    + simpl. lia.
    + simpl. lia.
    + discriminate.
Defined.

Lemma cleaned_spectrum_dominated (audio noise : block) :
  (forall k, Numpy.cabs (Numpy.dft_bin audio k)
             <= Numpy.cabs (Numpy.dft_bin noise k)) ->
  Forall (fun z => z = (0, 0)) (cleaned_spectrum audio noise).
Proof.
  intros H. unfold cleaned_spectrum.
  rewrite !map_map, combine_map_map, map_map, combine_map_map, map_map.
  apply Forall_map, Forall_forall. intros k _. cbn [fst snd].
  unfold Numpy.polar. rewrite Rmax_right by (specialize (H k); lra).
  now rewrite !Rmult_0_l.
Qed.

(** X13. When no frequency bin of the block is stronger than the same bin
    of the noise profile, [spectral_subtraction] returns pure silence.  In
    particular a silent block stays silent under any profile of its length,
    and a block used as its own noise profile is erased. *)
Theorem spectral_subtraction_erases_dominated :
  (forall audio noise,
      length audio = length noise -> (2 <= length audio)%nat ->
      (forall k, Numpy.cabs (Numpy.dft_bin audio k)
                 <= Numpy.cabs (Numpy.dft_bin noise k)) ->
      AudioAdvanced.spectral_subtraction audio noise
      = Ok (Numpy.zeros (2 * (length audio / 2))))
  /\ (forall audio noise,
         length audio = length noise -> (2 <= length audio)%nat ->
         silent audio ->
         AudioAdvanced.spectral_subtraction audio noise
         = Ok (Numpy.zeros (2 * (length audio / 2))))
  /\ (forall audio,
         (2 <= length audio)%nat ->
         AudioAdvanced.spectral_subtraction audio audio
         = Ok (Numpy.zeros (2 * (length audio / 2)))).
Proof.
  assert (G : forall audio noise,
             length audio = length noise -> (2 <= length audio)%nat ->
             (forall k, Numpy.cabs (Numpy.dft_bin audio k)
                        <= Numpy.cabs (Numpy.dft_bin noise k)) ->
             AudioAdvanced.spectral_subtraction audio noise
             = Ok (Numpy.zeros (2 * (length audio / 2)))).
  { intros audio noise Hl Hn Hd.
    rewrite (spectral_subtraction_eq audio noise Hl Hn). f_equal.
    rewrite (map_to_zero _ _ (fun t =>
      idft_sample_silent _ _ t (cleaned_spectrum_dominated audio noise Hd))).
    now rewrite length_seq. }
  split; [exact G | split].
  - intros audio noise Hl Hn Hs. apply G; [exact Hl | exact Hn |].
    intros k. rewrite (dft_bin_silent audio k Hs), cabs_origin.
    apply cabs_nonneg.
  - intros audio Hn. apply G; [reflexivity | exact Hn |]. intros k. lra.
Qed.

Lemma spectral_subtraction_erases_dominated_witness :
  AudioAdvanced.spectral_subtraction [1; -2; 3; 4] [1; -2; 3; 4]
  = Ok (Numpy.zeros 4)
  /\ AudioAdvanced.spectral_subtraction [0; 0] [5; 7] = Ok (Numpy.zeros 2).
Proof.
  split.
  - apply (proj2 (proj2 spectral_subtraction_erases_dominated) [1; -2; 3; 4]).
    simpl. lia.
  - apply (proj1 (proj2 spectral_subtraction_erases_dominated) [0; 0] [5; 7]).
    + reflexivity.
    + simpl. lia.
    + repeat constructor.
Defined.

(** ** The streaming callback and its buffers *)

Lemma assign_column_inv (frames : nat) (v o : block) :
  AudioAdvanced.assign_column frames v = Ok o -> (2 <= length v)%nat ->
  o = v /\ length v = frames.
Proof.
  unfold AudioAdvanced.assign_column.
  destruct (Nat.eqb_spec (length v) frames) as [E|_].
  - intros H _. apply Ok_inj in H. auto.
  - destruct v as [|c [|c' v]]; simpl; intros H Hl; try discriminate; lia.
Qed.

Lemma assign_tail_inv (x v y : block) (k : nat) :
  Numpy.assign_tail x k v = Ok y -> (2 <= length v)%nat -> length v = k ->
  (k <= length x)%nat /\ y = firstn (length x - k) x ++ v.
Proof.
  unfold Numpy.assign_tail. intros H Hv Hk.
  destruct (Nat.leb_spec k (length x)) as [Hle|Hgt].
  - split; [exact Hle|].
    assert (E0 : Nat.ltb 0 k = true) by (apply Nat.ltb_lt; lia).
    rewrite E0 in H. cbn [andb] in H.
    replace (length x - (length x - k))%nat with k in H by lia.
    rewrite Hk, Nat.eqb_refl in H. apply Ok_inj in H. now subst.
  - exfalso. rewrite andb_false_r in H.
    rewrite Nat.sub_0_r in H.
    destruct (Nat.eqb_spec (length v) (length x)) as [E|_]; [lia|].
    destruct v as [|c [|c' v]]; simpl in Hv; try discriminate H; lia.
Qed.

Lemma roll_then_keep (x : block) (k : nat) :
  (0 < k <= length x)%nat ->
  firstn (length x - k) (Numpy.roll_left x k) = skipn k x.
Proof.
  intros [H0 Hk]. unfold Numpy.roll_left.
  destruct (length x) as [|n] eqn:E; [lia|].
  destruct (Nat.eq_dec k (S n)) as [->|Hne].
  - rewrite Nat.Div0.mod_same, Nat.sub_diag, firstn_O.
    symmetry. apply skipn_all2. lia.
  - rewrite Nat.mod_small by lia.
    rewrite firstn_app, length_skipn, E, Nat.sub_diag, firstn_O, app_nil_r.
    apply firstn_all2. rewrite length_skipn. lia.
Qed.

(** Everything a successful callback implies about its input, its output
    and the session it leaves behind. *)
Lemma callback_body_inv env gain use_gate record s indata out s' :
  AudioAdvanced.callback_body env gain use_gate record s indata = Ok (out, s') ->
  length out = length indata
  /\ Nat.even (length out) = true /\ (2 <= length out)%nat
  /\ Forall in_range out
  /\ (length indata <= length (AudioAdvanced.realtime_buffer s))%nat
  /\ AudioAdvanced.realtime_buffer s'
     = skipn (length indata) (AudioAdvanced.realtime_buffer s) ++ out
  /\ AudioAdvanced.recorded_audio s'
     = if record then AudioAdvanced.recorded_audio s ++ [out]
       else AudioAdvanced.recorded_audio s.
Proof.
  unfold AudioAdvanced.callback_body. intros H.
  apply bind_Ok in H as [cleaned [H1 H]].
  apply bind_Ok in H as [audio_out [H2 H]].
  apply bind_Ok in H as [outdata [H3 H]].
  apply bind_Ok in H as [buffer [H4 H]].
  apply Ok_inj in H.
  apply spectral_subtraction_out_even in H1 as [He Hl].
  pose proof (process_audio_length _ _ _ _ _ _ H2) as L2.
  assert (Hr : Forall in_range audio_out).
  { apply process_audio_stages in H2 as [n [f [_ [_ ->]]]].
    apply clip_in_range. }
  apply assign_column_inv in H3 as [-> L3]; [|lia].
  apply assign_tail_inv in H4 as [Hfit ->];
    [| lia | exact L3].
  rewrite roll_left_length in Hfit.
  rewrite roll_left_length, roll_then_keep in H by lia.
  assert (Eo : out = audio_out) by congruence. subst out.
  assert (Es : s' = if record
                    then AudioAdvanced.append
                           {| AudioAdvanced.realtime_buffer :=
                                skipn (length indata)
                                      (AudioAdvanced.realtime_buffer s)
                                ++ audio_out;
                              AudioAdvanced.recorded_audio :=
                                AudioAdvanced.recorded_audio s |} audio_out
                    else {| AudioAdvanced.realtime_buffer :=
                              skipn (length indata)
                                    (AudioAdvanced.realtime_buffer s)
                              ++ audio_out;
                            AudioAdvanced.recorded_audio :=
                              AudioAdvanced.recorded_audio s |})
    by congruence.
  rewrite <- L2 in He, Hl. rewrite Es.
  repeat split; try assumption; try lia; destruct record; reflexivity.
Qed.



(** X15. With usable coefficients, a noise profile of the block's length
    and a buffer at least as long as the block, the callback succeeds
    exactly on blocks of even length two or more; on an odd block size every
    callback raises. *)
Theorem callback_needs_even_block env gain use_gate record s indata :
  AudioAdvanced.coeff_b env <> [] -> hd 0 (AudioAdvanced.coeff_a env) <> 0 ->
  length (AudioAdvanced.noise_profile env) = length indata ->
  (length indata <= length (AudioAdvanced.realtime_buffer s))%nat ->
  (exists r, AudioAdvanced.callback_body env gain use_gate record s indata = Ok r)
  <-> ((2 <= length indata)%nat /\ Nat.even (length indata) = true).
Proof.
  intros Hb Ha Hnoise Hfit. split.
  - intros [[out s'] H].
    destruct (callback_body_inv _ _ _ _ _ _ _ _ H) as [Lo [He [Hl _]]].
    rewrite Lo in He, Hl. auto.
  - intros [Hl He].
    destruct (spectral_subtraction_even_length indata
                (AudioAdvanced.noise_profile env)) as [cleaned [H1 L1]];
      [now symmetry | exact Hl | exact He |].
    destruct (process_audio_total cleaned (AudioAdvanced.coeff_b env)
                (AudioAdvanced.coeff_a env) gain use_gate)
      as [audio_out [H2 [L2 _]]]; [| exact Hb | exact Ha |].
    { intros ->. simpl in L1. lia. }
    destruct (callback_body_Ok env gain use_gate record s indata cleaned
                audio_out H1 H2) as [buffer [H _]]; [lia | lia |].
    eexists. exact H.
Qed.

Lemma callback_needs_even_block_witness :
  let env := {| AudioAdvanced.fs := 8; AudioAdvanced.blocksize := 3;
                AudioAdvanced.coeff_b := [1]; AudioAdvanced.coeff_a := [1];
                AudioAdvanced.noise_profile := [0; 0; 0] |} in
  let s := {| AudioAdvanced.realtime_buffer := [0; 0; 0; 0; 0; 0];
              AudioAdvanced.recorded_audio := [] |} in
  ~ exists r, AudioAdvanced.callback_body env 3 true false s [1; 0; -1] = Ok r.
Proof.
  intros env s Hex.
  apply (callback_needs_even_block env 3 true false s [1; 0; -1]) in Hex.
  - destruct Hex as [_ He]. discriminate He.
  - discriminate.
  - simpl. lra.
  - reflexivity.
  - simpl. lia.
Defined.

(** The session [realtime_process] sets up, run over one silent device
    block with the record box ticked before it and unticked after it. *)
Lemma one_block_session :
  exists env s0 w s,
    AudioAdvanced.realtime_process_setup = Ok (env, s0)
    /\ AudioAdvanced.run_stream env AudioAdvanced.initial_widgets s0
         [AudioAdvanced.Control (AudioAdvanced.SetRecord true);
          AudioAdvanced.Block (Numpy.zeros 512);
          AudioAdvanced.Control (AudioAdvanced.SetRecord false)]
       = Ok (w, s)
    /\ AudioAdvanced.recorded_audio s0 = []
    /\ AudioAdvanced.record_var w = false.
Proof.
  destruct realtime_process_setup_Ok as [b [a [Hsetup [Lb [La Ha]]]]].
  set (env := {| AudioAdvanced.fs := 44100; AudioAdvanced.blocksize := 512;
                 AudioAdvanced.coeff_b := b; AudioAdvanced.coeff_a := a;
                 AudioAdvanced.noise_profile := Numpy.zeros 512 |}) in *.
  set (s0 := {| AudioAdvanced.realtime_buffer := Numpy.zeros 44100;
                AudioAdvanced.recorded_audio := [] |}) in *.
  destruct (callback_body_silent env 3 true true s0 512) as [buffer [Hcb _]].
  { cbn [env AudioAdvanced.coeff_b]. intros ->. discriminate Lb. }
  { cbn [env AudioAdvanced.coeff_a]. rewrite Ha. lra. }
  { reflexivity. }
  { exact block_fits_buffer. }
  { reflexivity. }
  eexists env, s0, _, _. repeat split.
  - exact Hsetup.
  - cbn [AudioAdvanced.run_stream AudioAdvanced.apply_control
         AudioAdvanced.initial_widgets AudioAdvanced.gain_slider
         AudioAdvanced.noise_gate_var AudioAdvanced.record_var].
    unfold AudioAdvanced.audio_callback.
    cbn [AudioAdvanced.gain_slider AudioAdvanced.noise_gate_var
         AudioAdvanced.record_var].
    rewrite Hcb. reflexivity.
  - reflexivity.
Qed.

(** X16. Over a whole stream the session keeps its shape: the window never
    changes size, the recording only grows at its end, by at most one block
    per device block, and every block added to it lies in [-1, 1]. *)
Theorem stream_keeps_window_and_appends env (events : list AudioAdvanced.event) :
  forall w s w' s',
    AudioAdvanced.run_stream env w s events = Ok (w', s') ->
    length (AudioAdvanced.realtime_buffer s')
    = length (AudioAdvanced.realtime_buffer s)
    /\ exists added,
         AudioAdvanced.recorded_audio s'
         = AudioAdvanced.recorded_audio s ++ added
         /\ (length added <= length (blocks_of events))%nat
         /\ Forall (Forall in_range) added.
Proof.
  induction events as [|[indata|c] events IH]; intros w s w' s' H.
  - apply Ok_inj in H. injection H as <- <-. split; [reflexivity|].
    exists []. rewrite app_nil_r. repeat split; [simpl; lia | constructor].
  - cbn [AudioAdvanced.run_stream] in H.
    apply bind_Ok in H as [[out s1] [Hcb H]]. cbn [snd] in H.
    unfold AudioAdvanced.audio_callback in Hcb.
    destruct (callback_body_inv _ _ _ _ _ _ _ _ Hcb)
      as [Lo [_ [_ [Hr [Hfit [Hb Hrec]]]]]].
    destruct (IH _ _ _ _ H) as [Lw [added [Ha [Hn Hin]]]].
    split.
    + rewrite Lw, Hb, length_app, length_skipn. lia.
    + destruct (AudioAdvanced.record_var w).
      * exists (out :: added). rewrite Ha, Hrec, <- app_assoc.
        repeat split; [simpl; lia | now constructor].
      * exists added. rewrite Ha, Hrec.
        repeat split; [simpl; lia | exact Hin].
  - cbn [AudioAdvanced.run_stream] in H.
    destruct (IH _ _ _ _ H) as [Lw [added [Ha [Hn Hin]]]].
    split; [exact Lw|]. exists added. auto.
Qed.

Lemma stream_keeps_window_and_appends_witness :
  exists env s0 s,
    AudioAdvanced.realtime_process_setup = Ok (env, s0)
    /\ length (AudioAdvanced.realtime_buffer s)
       = length (AudioAdvanced.realtime_buffer s0)
    /\ exists added,
         AudioAdvanced.recorded_audio s
         = AudioAdvanced.recorded_audio s0 ++ added
         /\ (length added
             <= length (blocks_of
                          [AudioAdvanced.Control (AudioAdvanced.SetRecord true);
                           AudioAdvanced.Block (Numpy.zeros 512);
                           AudioAdvanced.Control (AudioAdvanced.SetRecord false)]))%nat
         /\ Forall (Forall in_range) added.
Proof.
  destruct one_block_session as [env [s0 [w [s [H0 [H1 _]]]]]].
  exists env, s0, s. split; [exact H0|].
  exact (stream_keeps_window_and_appends env _ _ _ _ _ H1).
Defined.





Lemma run_stream_recorded_in_range env (events : list AudioAdvanced.event) :
  forall w s w' s',
    Forall (Forall in_range) (AudioAdvanced.recorded_audio s) ->
    AudioAdvanced.run_stream env w s events = Ok (w', s') ->
    Forall (Forall in_range) (AudioAdvanced.recorded_audio s').
Proof.
  induction events as [|[indata|c] events IH]; intros w s w' s' Hs H.
  - apply Ok_inj in H. injection H as <- <-. exact Hs.
  - cbn [AudioAdvanced.run_stream] in H.
    apply bind_Ok in H as [[out s1] [Hcb H]]. cbn [snd] in H.
    unfold AudioAdvanced.audio_callback in Hcb.
    destruct (callback_body_inv _ _ _ _ _ _ _ _ Hcb)
      as [_ [_ [_ [Hr [_ [_ Hrec]]]]]].
    apply (IH _ _ _ _) in H; [exact H|]. rewrite Hrec.
    destruct (AudioAdvanced.record_var w); [|exact Hs].
    apply Forall_app. split; [exact Hs | now repeat constructor].
  - cbn [AudioAdvanced.run_stream] in H. now apply (IH _ _ _ _ Hs) in H.
Qed.

Lemma after_exception_recorded env w s indata :
  AudioAdvanced.recorded_audio (AudioAdvanced.after_exception env w s indata)
  = AudioAdvanced.recorded_audio s.
Proof.
  unfold AudioAdvanced.after_exception.
  now destruct (bind _ _).
Qed.

Lemma session_end_recorded_in_range env (events : list AudioAdvanced.event) :
  forall alive w s,
    Forall (Forall in_range) (AudioAdvanced.recorded_audio s) ->
    Forall (Forall in_range)
           (AudioAdvanced.recorded_audio
              (snd (AudioAdvanced.session_end env alive w s events))).
Proof.
  induction events as [|[indata|c] events IH]; intros alive w s Hs.
  - exact Hs.
  - cbn [AudioAdvanced.session_end]. destruct alive; [|now apply IH].
    destruct (AudioAdvanced.audio_callback env w s indata) as [[out s1]|e] eqn:E.
    + apply IH. eapply (run_stream_recorded_in_range env
                          [AudioAdvanced.Block indata] w s w s1 Hs).
      cbn [AudioAdvanced.run_stream]. now rewrite E.
    + apply IH. now rewrite after_exception_recorded.
  - cbn [AudioAdvanced.session_end]. now apply IH.
Qed.

(** X18. Whatever a stream writes at its end is sound, whether or not a
    callback raised on the way: if the recording held only samples in
    [-1, 1] when the stream opened (it is empty then), the written data lies
    in [-1, 1], is the recorded blocks joined in order, carries the stream's
    sample rate and goes to [realtime_recorded.wav]; and the record box was
    ticked at the end of the sleep, with at least one block recorded. *)
Theorem written_recording_in_range env w s events artifact :
  Forall (Forall in_range) (AudioAdvanced.recorded_audio s) ->
  AudioAdvanced.stream_thread env w s events = Ok (Some artifact) ->
  let final := AudioAdvanced.session_end env true w s events in
  Forall in_range (AudioAdvanced.data artifact)
  /\ AudioAdvanced.samplerate artifact = AudioAdvanced.fs env
  /\ AudioAdvanced.path artifact = "realtime_recorded.wav"%string
  /\ AudioAdvanced.record_var (fst final) = true
  /\ AudioAdvanced.recorded_audio (snd final) <> []
  /\ AudioAdvanced.data artifact
     = concat (AudioAdvanced.recorded_audio (snd final)).
Proof.
  intros Hs H final. unfold AudioAdvanced.stream_thread in H.
  fold final in H.
  pose proof (session_end_recorded_in_range env events true w s Hs) as Hr.
  fold final in Hr.
  unfold AudioAdvanced.flush in H.
  destruct (AudioAdvanced.record_var (fst final)) eqn:Hw; [|discriminate].
  apply bind_Ok in H as [full [Hc H]]. apply Ok_inj in H.
  assert (E : artifact
              = {| AudioAdvanced.path := "realtime_recorded.wav";
                   AudioAdvanced.data := full;
                   AudioAdvanced.samplerate := AudioAdvanced.fs env |})
    by congruence.
  unfold Numpy.concatenate in Hc.
  destruct (AudioAdvanced.recorded_audio (snd final)) as [|blk rest] eqn:Er;
    [discriminate|].
  apply Ok_inj in Hc. subst full artifact. cbn [AudioAdvanced.data
    AudioAdvanced.samplerate AudioAdvanced.path].
  repeat split.
  - apply Forall_concat. exact Hr.
  - discriminate.
Qed.

Lemma recording_session :
  exists env s0 s,
    AudioAdvanced.realtime_process_setup = Ok (env, s0)
    /\ AudioAdvanced.recorded_audio s0 = []
    /\ AudioAdvanced.fs env = 44100%nat
    /\ AudioAdvanced.run_stream env AudioAdvanced.initial_widgets s0
         [AudioAdvanced.Control (AudioAdvanced.SetRecord true);
          AudioAdvanced.Block (Numpy.zeros 512)]
       = Ok ({| AudioAdvanced.gain_slider := 3;
                AudioAdvanced.noise_gate_var := true;
                AudioAdvanced.record_var := true |}, s)
    /\ AudioAdvanced.recorded_audio s = [Numpy.zeros 512].
Proof.
  destruct realtime_process_setup_Ok as [b [a [Hsetup [Lb [La Ha]]]]].
  set (env := {| AudioAdvanced.fs := 44100; AudioAdvanced.blocksize := 512;
                 AudioAdvanced.coeff_b := b; AudioAdvanced.coeff_a := a;
                 AudioAdvanced.noise_profile := Numpy.zeros 512 |}) in *.
  set (s0 := {| AudioAdvanced.realtime_buffer := Numpy.zeros 44100;
                AudioAdvanced.recorded_audio := [] |}) in *.
  destruct (callback_body_silent env 3 true true s0 512) as [buffer [Hcb _]].
  { cbn [env AudioAdvanced.coeff_b]. intros ->. discriminate Lb. }
  { cbn [env AudioAdvanced.coeff_a]. rewrite Ha. lra. }
  { reflexivity. }
  { exact block_fits_buffer. }
  { reflexivity. }
  eexists env, s0, _. split; [exact Hsetup|].
  split; [reflexivity|]. split; [reflexivity|]. split.
  - cbn [AudioAdvanced.run_stream AudioAdvanced.apply_control
         AudioAdvanced.initial_widgets AudioAdvanced.gain_slider
         AudioAdvanced.noise_gate_var AudioAdvanced.record_var].
    unfold AudioAdvanced.audio_callback.
    cbn [AudioAdvanced.gain_slider AudioAdvanced.noise_gate_var
         AudioAdvanced.record_var].
    rewrite Hcb. reflexivity.
  - reflexivity.
Qed.

Lemma written_recording_in_range_witness :
  exists env s0 artifact,
    AudioAdvanced.realtime_process_setup = Ok (env, s0)
    /\ AudioAdvanced.stream_thread env AudioAdvanced.initial_widgets s0
         [AudioAdvanced.Control (AudioAdvanced.SetRecord true);
          AudioAdvanced.Block (Numpy.zeros 512)]
       = Ok (Some artifact)
    /\ Forall in_range (AudioAdvanced.data artifact)
    /\ AudioAdvanced.samplerate artifact = AudioAdvanced.fs env.
Proof.
  destruct recording_session as [env [s0 [s [H0 [He [_ [Hrun Hrec]]]]]]].
  assert (Hst : AudioAdvanced.stream_thread env AudioAdvanced.initial_widgets s0
                  [AudioAdvanced.Control (AudioAdvanced.SetRecord true);
                   AudioAdvanced.Block (Numpy.zeros 512)]
                = Ok (Some {| AudioAdvanced.path := "realtime_recorded.wav";
                              AudioAdvanced.data := concat [Numpy.zeros 512];
                              AudioAdvanced.samplerate := AudioAdvanced.fs env |})).
  { rewrite (stream_thread_of_run _ _ _ _ _ _ Hrun).
    rewrite flush_ticked; [now rewrite Hrec | reflexivity |].
    rewrite Hrec. discriminate. }
  eexists env, s0, _. split; [exact H0|]. split; [exact Hst|].
  assert (Hs : Forall (Forall in_range) (AudioAdvanced.recorded_audio s0))
    by (rewrite He; constructor).
  destruct (written_recording_in_range env _ s0 _ _ Hs Hst) as [H1 [H2 _]].
  split; [exact H1 | exact H2].
Defined.

(** ** The file path of [audio_advanced.py] *)

(** X19. [process_file]'s numeric part raises on an empty file; on any
    other it returns a block of the file's length with every sample in
    [-1, 1], and a silent file comes out silent, for every gain. *)
Theorem process_file_samples_total :
  (forall gain,
      AudioAdvanced.process_file_samples [] gain = Raise ValueError)
  /\ (forall audio gain,
         audio <> [] ->
         exists out,
           AudioAdvanced.process_file_samples audio gain = Ok out
           /\ length out = length audio
           /\ Forall in_range out
           /\ (silent audio -> silent out)).
Proof.
  destruct realtime_process_setup_Ok as [b [a [_ [Lb [La Ha]]]]].
  destruct butter_default_band as [b' [a' E]].
  destruct (butter_shape _ _ _ _ _ _ E) as [Ha' [_ [_ H2]]].
  destruct (H2 eq_refl) as [Lb' La'].
  assert (Hb : b' <> []) by (intros ->; discriminate Lb').
  assert (Hd : hd 0 a' <> 0) by (rewrite Ha'; lra).
  split.
  - intros gain. unfold AudioAdvanced.process_file_samples,
      AudioAdvanced.design_iir_filter. rewrite E. reflexivity.
  - intros audio gain Hx.
    unfold AudioAdvanced.process_file_samples, AudioAdvanced.design_iir_filter.
    rewrite E. cbn [bind fst snd].
    destruct (process_audio_total audio b' a' gain true Hx Hb Hd)
      as [out [Ho [Lo Hr]]].
    exists out. repeat split; try assumption.
    intros Hs. rewrite (process_audio_silent audio b' a' gain true Hx Hb Hd Hs)
      in Ho. apply Ok_inj in Ho. subst out. apply silent_zeros.
Qed.

Lemma process_file_samples_total_witness :
  exists out,
    AudioAdvanced.process_file_samples [1; -1; 1 / 2] 3 = Ok out
    /\ length out = 3%nat /\ Forall in_range out
    /\ (silent [1; -1; 1 / 2] -> silent out).
Proof.
  apply (proj2 process_file_samples_total [1; -1; 1 / 2] 3). discriminate.
Defined.
